(** * Schema validation and error reporting of nestjs-typebox

    A shallow embedding of [buildSchemaValidator] (src/decorators.ts) and of
    [AjvValidationException] (src/exceptions.ts), together with the
    properties of the validator builder, of [validate] and of the error
    reporter.

    JavaScript data lives in an explicit store: records and arrays are
    objects at locations, values refer to them by reference, so that the
    in-place assignments of [validate] and the aliasing between its local
    variables and its argument are visible.  Schemas are JSON documents that
    [validate] only reads; they are plain trees. *)

From Stdlib Require Import String Ascii ZArith QArith List Bool Lia.
From stdpp Require Import base option list gmap strings pretty.

Set Warnings "-register-all".
Open Scope string_scope.
Open Scope list_scope.
Open Scope Z_scope.

(** ** JSON documents (schemas, error parameters) *)

(** An object is the list of its entries, in the order [Object.entries]
    gives them.  The numeric literals of a schema play no part in what
    follows; integers stand for them. *)

Inductive json :=
| JNull
| JBool (b : bool)
| JNum (n : Z)
| JStr (s : string)
| JArr (elems : list json)
| JObj (props : list (string * json)).

(** Own-property lookup in the entries of an object literal. *)
Fixpoint assoc {A} (k : string) (l : list (string * A)) : option A :=
  match l with
  | [] => None
  | (k', v) :: r => if String.eqb k k' then Some v else assoc k r
  end.

(** ** The error reporter: src/exceptions.ts *)

Inductive ValidatorType := body | param | query | response.

(** The string a template literal prints for a validator type. *)
Definition type_str (t : ValidatorType) : string :=
  match t with
  | body => "body"
  | param => "param"
  | query => "query"
  | response => "response"
  end.

(** Ajv's [ErrorObject]. *)
Record ErrorObject := {
  instancePath : string;
  keyword : string;
  schemaPath : string;
  params : json;
  message : option string
}.

(** [String.prototype.includes]: [sub] occurs somewhere in [s]. *)
Fixpoint includes (s sub : string) : bool :=
  String.prefix sub s ||
  match s with
  | EmptyString => false
  | String _ r => includes r sub
  end.

(** [String.prototype.startsWith]. *)
Definition startsWith (s pre : string) : bool := String.prefix pre s.

Definition is_union_keyword (k : string) : bool :=
  String.eqb k "oneOf" || String.eqb k "anyOf".

(** The two accumulators of the constructor. *)
Record reporter := {
  topLevelErrors : list ErrorObject;
  unionPaths : list string
}.

(** One iteration of [for (const error of errors)]. *)
Definition report_step (r : reporter) (error : ErrorObject) : reporter :=
  if existsb (fun path => includes (instancePath error) path) (unionPaths r)
  then r
  else
    {| topLevelErrors := topLevelErrors r ++ [error];
       unionPaths :=
         if is_union_keyword (keyword error)
         then unionPaths r ++ [instancePath error]
         else unionPaths r |}.

(** The loop, guarded by [if (errors)]: [None] is [null] or [undefined]. *)
Definition report_loop (errors : option (list ErrorObject)) : reporter :=
  match errors with
  | None => {| topLevelErrors := []; unionPaths := [] |}
  | Some l => fold_left report_step l {| topLevelErrors := []; unionPaths := [] |}
  end.

(** The object handed to [BadRequestException]. *)
Record ResponseBody := {
  statusCode : Z;
  rb_message : string;
  errors : list ErrorObject
}.

(** [HttpStatus.BAD_REQUEST] of @nestjs/common. *)
Definition BAD_REQUEST : Z := 400.

(** The class as src/exceptions.ts declares it; src/decorators.ts imports
    this one. *)
Module Exceptions.
Definition AjvValidationException
    (type : ValidatorType) (errs : option (list ErrorObject)) : ResponseBody :=
  {| statusCode := BAD_REQUEST;
     rb_message := "Validation failed (" +:+ type_str type +:+ ")";
     errors := topLevelErrors (report_loop errs) |}.
End Exceptions.

(** The revision of the class that is generic in the request and response
    schemas (it goes with the two-parameter [ValidatorType]); the loop is the
    same, the message differs. *)
Module ExceptionsGeneric.
Definition AjvValidationException
    (type : ValidatorType) (errs : option (list ErrorObject)) : ResponseBody :=
  {| statusCode := BAD_REQUEST;
     rb_message := "Validation error (" +:+ type_str type +:+ ")";
     errors := topLevelErrors (report_loop errs) |}.
End ExceptionsGeneric.

(** ** JavaScript data in a store *)

Abbreviation loc := nat.

(** Numbers are exact rationals kept in lowest terms. *)
Inductive value :=
| VUndefined
| VNull
| VBool (b : bool)
| VNum (q : Q)
| VStr (s : string)
| VRef (l : loc).

(** A record is a finite map from property names to values. *)
Inductive object :=
| ORecord (props : gmap string value)
| OArray (elems : list value).

Abbreviation heap := (list object).

(** [new]: the object goes to the first unused location. *)
Definition alloc (h : heap) (o : object) : heap * loc := (h ++ [o], length h).

(** [data[prop]] on a record. *)
Definition get_prop (h : heap) (l : loc) (prop : string) : value :=
  match h !! l with
  | Some (ORecord m) => default VUndefined (m !! prop)
  | _ => VUndefined
  end.

(** [o[prop] = v] on the own properties [m] of a record [o] whose prototype
    is [Object.prototype].  An own property is overwritten and a new name
    becomes an own property, except for the name [__proto__]: when the
    record has no own property of that name, the assignment runs the setter
    it inherits, which makes no own property.  (The setter can change the
    prototype link of the record; the store holds the own properties of a
    record, not that link.) *)
Definition rec_assign (prop : string) (v : value) (m : gmap string value)
  : gmap string value :=
  match m !! prop with
  | Some _ => <[prop := v]> m
  | None => if String.eqb prop "__proto__" then m else <[prop := v]> m
  end.

(** [processedData[prop] = v] on a record. *)
Definition set_prop (l : loc) (prop : string) (v : value) (h : heap) : heap :=
  match h !! l with
  | Some (ORecord m) => <[l := ORecord (rec_assign prop v m)]> h
  | _ => h
  end.

(** [dataArray[i]]. *)
Definition get_elem (h : heap) (l : loc) (i : nat) : value :=
  match h !! l with
  | Some (OArray es) => default VUndefined (es !! i)
  | _ => VUndefined
  end.

(** [dataArray[i] = v], for an index inside the array (the loop of
    [validate] never leaves it). *)
Definition set_elem (l : loc) (i : nat) (v : value) (h : heap) : heap :=
  match h !! l with
  | Some (OArray es) => <[l := OArray (<[i := v]> es)]> h
  | _ => h
  end.

(** [dataArray.length]. *)
Definition array_length (h : heap) (l : loc) : nat :=
  match h !! l with
  | Some (OArray es) => length es
  | _ => 0%nat
  end.

(** [Array.isArray], with the location of the array. *)
Definition array_loc (h : heap) (v : value) : option loc :=
  match v with
  | VRef l => match h !! l with Some (OArray _) => Some l | _ => None end
  | _ => None
  end.

Definition isArray (h : heap) (v : value) : bool :=
  match array_loc h v with Some _ => true | None => false end.

(** The property names [for (const prop in data)] goes through. *)
Definition keys_of (h : heap) (l : loc) : list string :=
  match h !! l with
  | Some (ORecord m) => (map_to_list m).*1
  | _ => []
  end.

(** ** Exceptions *)

Inductive exn :=
| TypeError
| ConfigError (msg : string)
| CompileError
| BadRequest (b : ResponseBody).

Inductive outcome (A : Type) :=
| Returned (a : A)
| Thrown (e : exn).
Arguments Returned {A} a.
Arguments Thrown {A} e.

#[global] Instance outcome_ret : MRet outcome := @Returned.

#[global] Instance outcome_bind : MBind outcome := fun A B f m =>
  match m with
  | Returned a => f a
  | Thrown e => Thrown e
  end.

(** ** Reading a schema *)

(** [j.k]: reading a property of [null] throws; a primitive or an array has
    none of the properties the validator asks for. *)
Definition prop_get (j : json) (k : string) : outcome (option json) :=
  match j with
  | JNull => Thrown TypeError
  | JObj l => Returned (assoc k l)
  | _ => Returned None
  end.

(** [o ?? d]. *)
Definition coalesce (o : option json) (d : json) : json :=
  match o with
  | None | Some JNull => d
  | Some j => j
  end.

(** [String(j)]. *)
Fixpoint js_String (j : json) : string :=
  match j with
  | JNull => "null"
  | JBool true => "true"
  | JBool false => "false"
  | JNum n => pretty n
  | JStr s => s
  | JArr l =>
      (fix join (l : list json) : string :=
         match l with
         | [] => ""
         | e :: r =>
             (match e with JNull => "" | _ => js_String e end) +:+
             (match r with [] => "" | _ => "," +:+ join r end)
         end) l
  | JObj _ => "[object Object]"
  end.

(** [Object.entries(j)]. *)
Definition entries (j : json) : list (string * json) :=
  match j with
  | JObj l => l
  | JArr l => imap (fun i e => (pretty i, e)) l
  | JStr s => imap (fun i c => (pretty i, JStr (String c ""))) (list_ascii_of_string s)
  | _ => []
  end.

(** [def && typeof def === 'object' && 'type' in def ? String(def.type) : 'unknown'] *)
Definition prop_type (def : json) : string :=
  match def with
  | JObj l => match assoc "type" l with Some t => js_String t | None => "unknown" end
  | _ => "unknown"
  end.

(** The body of the [reduce] callback. *)
Definition reduce_step (obj : gmap string string) (schema : json)
  : outcome (gmap string string) :=
  ps ← prop_get schema "properties";
  Returned (fold_left (fun (obj : gmap string string) '(prop, def) => <[prop := prop_type def]> obj)
                      (entries (coalesce ps (JObj []))) obj).

Fixpoint reduce (branches : list json) (obj : gmap string string)
  : outcome (gmap string string) :=
  match branches with
  | [] => Returned obj
  | schema :: r => obj' ← reduce_step obj schema; reduce r obj'
  end.

(** [jsonSchema.anyOf ?? jsonSchema.allOf ?? [jsonSchema]], which must be an
    array for [reduce] to exist. *)
Definition branches_of (jsonSchema : json) : outcome (list json) :=
  a ← prop_get jsonSchema "anyOf";
  b ← prop_get jsonSchema "allOf";
  match coalesce a (coalesce b (JArr [jsonSchema])) with
  | JArr l => Returned l
  | _ => Thrown TypeError
  end.

Definition knownPropTypes (jsonSchema : json) : outcome (gmap string string) :=
  bs ← branches_of jsonSchema; reduce bs ∅.

(** [typeof jsonSchema.type === 'string'], with the string. *)
Definition scalar_type (jsonSchema : json) : option string :=
  match jsonSchema with
  | JObj l => match assoc "type" l with Some (JStr s) => Some s | _ => None end
  | _ => None
  end.

(** ** The helpers of src/util.ts *)

Definition digit (c : ascii) : option Z :=
  let n := Z.of_nat (nat_of_ascii c) in
  if (48 <=? n) && (n <=? 57) then Some (n - 48) else None.

Fixpoint digits (s : string) (acc : Z) : option Z :=
  match s with
  | EmptyString => Some acc
  | String c r => d ← digit c; digits r (10 * acc + d)
  end.

Definition decimal (s : string) : option Z :=
  match s with
  | EmptyString => None
  | _ => digits s 0
  end.

Fixpoint split_dot (s : string) : string * option string :=
  match s with
  | EmptyString => (EmptyString, None)
  | String c r =>
      if Ascii.eqb c "." then (EmptyString, Some r)
      else let '(a, b) := split_dot r in (String c a, b)
  end.

(** Modelled from the spec: the reading of the digits [r] that follow the
    sign of a numeric-looking string. *)
Definition parseUnsigned (sign : Z) (r : string) : option Q :=
  let '(ip, fp) := split_dot r in
  i ← decimal ip;
  match fp with
  | None => Some (sign * i # 1)
  | Some f =>
      d ← decimal f;
      let scale := 10 ^ Z.of_nat (String.length f) in
      Some (Qred (sign * (i * scale + d) # Z.to_pos scale))
  end.

(** Modelled from the spec: src/util.ts is missing, and with it the reading
    of a numeric-looking string.  A numeric-looking string is an optional
    minus sign, decimal digits and, optionally, a point followed by decimal
    digits; it denotes the decimal number it spells. *)
Definition parseNumber (s : string) : option Q :=
  match s with
  | String c r => if Ascii.eqb c "-" then parseUnsigned (-1) r else parseUnsigned 1 s
  | EmptyString => None
  end.

(** Modelled from the spec: [coerceType] of the missing src/util.ts.  Target
    [integer] or [number]: a numeric-looking string is parsed, anything else
    passes through.  Target [boolean]: the strings [true] and [false] become
    the booleans, anything else passes through.  Any other target: the value
    passes through.  It never throws: it is a total function. *)
Definition coerceType (ty : string) (v : value) : value :=
  if String.eqb ty "integer" || String.eqb ty "number" then
    match v with
    | VStr s => match parseNumber s with Some q => VNum q | None => v end
    | _ => v
    end
  else if String.eqb ty "boolean" then
    match v with
    | VStr s =>
        if String.eqb s "true" then VBool true
        else if String.eqb s "false" then VBool false
        else v
    | _ => v
    end
  else v.

(** Modelled from the spec: [isObj] of the missing src/util.ts holds of a
    plain key-value record. *)
Definition isObj (h : heap) (v : value) : bool :=
  match v with
  | VRef l => match h !! l with Some (ORecord _) => true | _ => false end
  | _ => false
  end.

(** The truth value of a flag that may be absent. *)
Definition truthy (b : option bool) : bool := default false b.

(** ** Reading the known-property map *)

(** The known-property map is an object made by the literal [{}]: next to
    the entries [reduce] gave it, it has the members every such object
    inherits from [Object.prototype]. *)
Definition object_prototype_names : list string :=
  ["constructor"; "__defineGetter__"; "__defineSetter__"; "hasOwnProperty";
   "__lookupGetter__"; "__lookupSetter__"; "isPrototypeOf";
   "propertyIsEnumerable"; "toString"; "valueOf"; "__proto__";
   "toLocaleString"].

(** What [knownPropTypes[prop]] is when it is not [undefined]: the type name
    recorded for [prop], or a member inherited from [Object.prototype] (a
    function or, for [__proto__], the prototype itself). *)
Inductive known_type :=
| TypeName (ty : string)
| Inherited.

(** [knownPropTypes[prop]], with [None] for [undefined].  An own entry hides
    the inherited member of the same name.  The name [__proto__] always
    reads the prototype itself, whatever [reduce] assigned under that
    name: such an assignment makes no own entry. *)
Definition known_type_of (known : gmap string string) (prop : string)
  : option known_type :=
  if String.eqb prop "__proto__" then Some Inherited
  else
    match known !! prop with
    | Some ty => Some (TypeName ty)
    | None =>
        if existsb (String.eqb prop) object_prototype_names
        then Some Inherited else None
    end.

(** Modelled from the spec: [coerceType(knownPropTypes[prop], v)].  For a
    type name it is [coerceType]; an inherited member is none of the type
    names [coerceType] maps, and an unmapped type passes the value
    through. *)
Definition coerce_known (t : known_type) (v : value) : value :=
  match t with
  | TypeName ty => coerceType ty v
  | Inherited => v
  end.

(** ** [validate]: src/decorators.ts, lines 68 to 123 *)

Section Validate.
(** What the closure captures. *)
Variable type : ValidatorType.
Variable schema : json.
Variables coerceTypes stripUnknownProps required : option bool.

(** The inner loop, [for (const prop in data)], with [data] at [ld] and
    [processedData] at [lp]; the two are the same location when nothing is
    stripped.  Line 98 skips a property when [knownPropTypes[prop]] is
    [undefined]; a property whose name the map inherits is not skipped. *)
Fixpoint props_loop (known : gmap string string) (ld lp : loc)
    (props : list string) (h : heap) : heap :=
  match props with
  | [] => h
  | prop :: rest =>
      match known_type_of known prop with
      | None => props_loop known ld lp rest h
      | Some t =>
          let h1 :=
            if truthy stripUnknownProps
            then set_prop lp prop (get_prop h ld prop) h else h in
          let h2 :=
            if truthy coerceTypes
            then set_prop lp prop (coerce_known t (get_prop h1 ld prop)) h1 else h1 in
          props_loop known ld lp rest h2
      end
  end.

(** The body of [for (let i = 0; ...)] at index [i]. *)
Definition elem_step (known : gmap string string) (jsonSchema : json)
    (la : loc) (h : heap) (i : nat) : heap :=
  let data := get_elem h la i in
  if isObj h data then
    match data with
    | VRef ld =>
        let '(h1, lp) :=
          if truthy stripUnknownProps then alloc h (ORecord ∅) else (h, ld) in
        let h2 := props_loop known ld lp (keys_of h1 ld) h1 in
        set_elem la i (VRef lp) h2
    | _ => h
    end
  else
    match scalar_type jsonSchema with
    | Some ty =>
        if truthy coerceTypes then set_elem la i (coerceType ty data) h else h
    | None => h
    end.

(** Lines 72 to 115: the data handed to the checker. *)
Definition transform (h : heap) (dataOrArray : value) : outcome (heap * value) :=
  if truthy coerceTypes || truthy stripUnknownProps then
    '(jsonSchema, h1, la) ←
      match array_loc h dataOrArray with
      | Some l =>
          items ← prop_get schema "items";
          Returned (coalesce items (JObj []), h, l)
      | None =>
          let '(h1, la) := alloc h (OArray [dataOrArray]) in
          Returned (schema, h1, la)
      end;
    known ← knownPropTypes jsonSchema;
    let h2 := fold_left (elem_step known jsonSchema la)
                        (seq 0 (array_length h1 la)) h1 in
    (* line 114 repeats the test of line 75; an object keeps its kind *)
    Returned (h2, if isArray h dataOrArray then dataOrArray else get_elem h2 la 0)
  else Returned (h, dataOrArray).

(** The store, and the arguments the compiled checker was called with so
    far. *)
Record state := {
  st_heap : heap;
  st_checked : list value
}.

(** What a call of the compiled checker gives: [true], or [false] with
    [check.errors]. *)
Inductive verdict :=
| Accept
| Reject (errs : option (list ErrorObject)).

(** The compiled checker is Ajv's; it reads the store and, as Ajv is set up
    here (coercion, defaults, removal of additional properties), may
    write it. *)
Variable check : heap -> value -> heap * verdict.

(** Lines 117 to 122, on the transformed data; [checked] lists the earlier
    calls of the checker. *)
Definition validate_tail (checked : list value) (h : heap)
    (processedDataOrArray : value) : state * outcome value :=
  if match processedDataOrArray with VUndefined => true | _ => false end
     && negb (truthy required)
  then ({| st_heap := h; st_checked := checked |}, Returned VUndefined)
  else
    let '(h', v) := check h processedDataOrArray in
    let st' := {| st_heap := h'; st_checked := checked ++ [processedDataOrArray] |} in
    match v with
    | Accept => (st', Returned processedDataOrArray)
    | Reject errs => (st', Thrown (BadRequest (Exceptions.AjvValidationException type errs)))
    end.

Definition validate (st : state) (dataOrArray : value) : state * outcome value :=
  match transform (st_heap st) dataOrArray with
  | Thrown e => (st, Thrown e)
  | Returned (h, processedDataOrArray) =>
      validate_tail (st_checked st) h processedDataOrArray
  end.
End Validate.

(** ** [buildSchemaValidator]: src/decorators.ts, lines 42 to 67 *)

(** The fields of [SchemaValidatorConfig] the builder destructures; each may
    be absent. *)
Record SchemaValidatorConfig := {
  cfg_type : option ValidatorType;
  cfg_schema : option json;
  cfg_coerceTypes : option bool;
  cfg_stripUnknownProps : option bool;
  cfg_name : option string;
  cfg_required : option bool
}.

Abbreviation checker := (heap -> value -> heap * verdict).

Record SchemaValidator := {
  sv_schema : json;
  sv_name : string;
  sv_check : checker;
  sv_validate : state -> value -> state * outcome value
}.

(** A double quote, for the messages. *)
Definition dq : string := String (ascii_of_nat 34) EmptyString.

Section Builder.
(** TypeBox's structural test on a value that is there, and Ajv's
    compiler, which throws on a schema it cannot compile ([None]). *)
Variable IsSchema : json -> bool.
Variable compile : json -> option checker.

(** [TypeGuard.IsSchema(schema)]: the guard asks for an object, so it
    rejects [undefined]. *)
Definition TypeGuard_IsSchema (schema : option json) : bool :=
  match schema with
  | Some s => IsSchema s
  | None => false
  end.

Definition buildSchemaValidator (cfg : SchemaValidatorConfig) : outcome SchemaValidator :=
  match cfg_type cfg with
  | None => Thrown (ConfigError ("Validator missing " +:+ dq +:+ "type" +:+ dq +:+ "."))
  | Some type =>
      match cfg_name cfg with
      | None | Some EmptyString =>
          Thrown (ConfigError ("Validator of type " +:+ dq +:+ type_str type +:+ dq +:+ " missing name."))
      | Some name =>
          if negb (TypeGuard_IsSchema (cfg_schema cfg)) then
            Thrown (ConfigError ("Validator " +:+ dq +:+ name +:+ dq +:+ " expects a TypeBox schema."))
          else
            match cfg_schema cfg with
            | Some schema =>
                match compile schema with
                | None => Thrown CompileError
                | Some check =>
                    Returned {| sv_schema := schema;
                                sv_name := name;
                                sv_check := check;
                                sv_validate :=
                                  validate type schema (cfg_coerceTypes cfg)
                                    (cfg_stripUnknownProps cfg) (cfg_required cfg) check |}
                end
            | None =>
                (* not reached: the guard has rejected [undefined] *)
                Thrown TypeError
            end
      end
  end.
End Builder.

(** ** The defaults of the [Validate] decorator: src/decorators.ts, lines 146 to 202 *)

(** [Type.String()], the schema of a plain string. *)
Definition string_schema : json := JObj [("type", JStr "string")].

(** The configuration [Validate] hands to the builder for a request
    validator, by the [switch] on its type; [methodName] is the capitalised
    name of the decorated method.  A default applies to a field that is
    absent.  A configuration without a type, or of type [response], matches
    no case. *)
Definition requestValidatorConfig (methodName : string) (validatorConfig : SchemaValidatorConfig)
  : option SchemaValidatorConfig :=
  match cfg_type validatorConfig with
  | Some body =>
      Some {| cfg_type := Some body;
              cfg_schema := cfg_schema validatorConfig;
              cfg_coerceTypes := cfg_coerceTypes validatorConfig;
              cfg_stripUnknownProps := cfg_stripUnknownProps validatorConfig;
              cfg_name := Some (default (methodName +:+ "Body") (cfg_name validatorConfig));
              cfg_required := Some (default true (cfg_required validatorConfig)) |}
  | Some param =>
      Some {| cfg_type := Some param;
              cfg_schema := Some (default string_schema (cfg_schema validatorConfig));
              cfg_coerceTypes := Some (default true (cfg_coerceTypes validatorConfig));
              cfg_stripUnknownProps := cfg_stripUnknownProps validatorConfig;
              cfg_name := cfg_name validatorConfig;
              cfg_required := Some (default true (cfg_required validatorConfig)) |}
  | Some query =>
      Some {| cfg_type := Some query;
              cfg_schema := Some (default string_schema (cfg_schema validatorConfig));
              cfg_coerceTypes := Some (default true (cfg_coerceTypes validatorConfig));
              cfg_stripUnknownProps := cfg_stripUnknownProps validatorConfig;
              cfg_name := cfg_name validatorConfig;
              cfg_required := Some (default false (cfg_required validatorConfig)) |}
  | _ => None
  end.

(** The configuration [Validate] hands to the builder for the response
    validator. *)
Definition responseValidatorConfig (methodName : string) (validatorConfig : SchemaValidatorConfig)
  : SchemaValidatorConfig :=
  {| cfg_type := Some response;
     cfg_schema := cfg_schema validatorConfig;
     cfg_coerceTypes := cfg_coerceTypes validatorConfig;
     cfg_stripUnknownProps := Some (default true (cfg_stripUnknownProps validatorConfig));
     cfg_name := Some (default (methodName +:+ "Response") (cfg_name validatorConfig));
     cfg_required := Some (default true (cfg_required validatorConfig)) |}.

(** ** The path checks of [HttpEndpoint]: src/decorators.ts, lines 232 to 256 *)

(** [s.split(sep)] for a separator of one character. *)
Fixpoint split_on (sep : ascii) (s : string) : list string :=
  match s with
  | EmptyString => [EmptyString]
  | String c r =>
      if Ascii.eqb c sep then EmptyString :: split_on sep r
      else match split_on sep r with
           | x :: xs => String c x :: xs
           | [] => [String c EmptyString]
           end
  end.

(** [String.prototype.endsWith]. *)
Fixpoint endsWith (s suf : string) : bool :=
  String.eqb s suf ||
  match s with
  | EmptyString => false
  | String _ r => endsWith r suf
  end.

(** The characters [.] does not match; strings are sequences of 8-bit
    characters, among which the line terminators are LF and CR. *)
Definition is_line_terminator (c : ascii) : bool :=
  Ascii.eqb c "010" || Ascii.eqb c "013".

Fixpoint has_line_terminator (s : string) : bool :=
  match s with
  | EmptyString => false
  | String c r => is_line_terminator c || has_line_terminator r
  end.

(** [seg.replace(re, '$1')], where the pattern [re] of the source reads: start
    of input, a colon, a group that captures any characters, as many as
    possible, an optional backslash, end of input.  The pattern must match
    the whole segment: after the colon the greedy group takes every
    character up to the end, unless one of them is a line terminator, and
    leaves nothing for the optional backslash.  When the pattern matches,
    the segment is replaced by the group; otherwise it is left as it is. *)
Definition param_name (seg : string) : string :=
  match seg with
  | String ":" rest => if has_line_terminator rest then seg else rest
  | _ => seg
  end.

Record PathParam := {
  pp_name : string;
  pp_required : bool
}.

(** [path.split('/').filter(seg => seg.startsWith(':')).map(...)] *)
Definition pathParams (path : string) : list PathParam :=
  map (fun seg => {| pp_name := param_name seg;
                     pp_required := negb (endsWith seg "?") |})
      (List.filter (fun seg => startsWith seg ":") (split_on "/" path)).

(** [v.name === name], also [p.name == v.name]: an absent name equals no
    string. *)
Definition has_name (name : string) (v : SchemaValidatorConfig) : bool :=
  match cfg_name v with
  | Some n => String.eqb n name
  | None => false
  end.

(** What a template literal prints for a name that may be absent. *)
Definition name_str (n : option string) : string := default "undefined" n.

(** [for (const pathParam of pathParams)]. *)
Fixpoint check_path_params (request : list SchemaValidatorConfig)
    (pps : list PathParam) : outcome unit :=
  match pps with
  | [] => Returned tt
  | pathParam :: rest =>
      match List.find (has_name (pp_name pathParam)) request with
      | None =>
          Thrown (ConfigError ("Path param " +:+ dq +:+ pp_name pathParam +:+ dq
                               +:+ " is missing a request validator."))
      | Some paramValidator =>
          if match cfg_required paramValidator with Some false => true | _ => false end
             && pp_required pathParam
          then Thrown (ConfigError ("Optional path param " +:+ dq +:+ pp_name pathParam
                                    +:+ dq +:+ " is required in validator."))
          else check_path_params request rest
      end
  end.

(** [v.type === 'param' && !pathParams.some(p => p.name == v.name)] *)
Definition is_stray_param (pps : list PathParam) (v : SchemaValidatorConfig) : bool :=
  match cfg_type v with Some param => true | _ => false end
  && negb (existsb (fun p => has_name (pp_name p) v) pps).

(** The checks [HttpEndpoint] runs before it applies its decorators; they are
    skipped when the path is absent or empty, and when there are no request
    validators ([request] is [None] also when [validate] is absent). *)
Definition pathParamChecks (path : option string)
    (request : option (list SchemaValidatorConfig)) : outcome unit :=
  match path, request with
  | Some path, Some request =>
      if String.eqb path "" then Returned tt
      else
        let pps := pathParams path in
        _ ← check_path_params request pps;
        match List.find (is_stray_param pps) request with
        | Some missingPathParam =>
            Thrown (ConfigError ("Request validator references non-existent path parameter "
                                 +:+ dq +:+ name_str (cfg_name missingPathParam) +:+ dq +:+ "."))
        | None => Returned tt
        end
  | _, _ => Returned tt
  end.

(** * Notions used in the statements *)

(** A raw error with the two fields the reporter reads. *)
Definition mkError (path kw : string) : ErrorObject :=
  {| instancePath := path; keyword := kw; schemaPath := "#"; params := JObj [];
     message := None |}.

(** The accumulators before the loop. *)
Definition reporter0 : reporter := {| topLevelErrors := []; unionPaths := [] |}.

(** The instance paths of the union mismatches among [errs]. *)
Definition union_paths_of (errs : list ErrorObject) : list string :=
  map instancePath (List.filter (fun e => is_union_keyword (keyword e)) errs).

(** Two checkers that write nothing. *)
Definition reject_all (errs : option (list ErrorObject)) : heap -> value -> heap * verdict :=
  fun h _ => (h, Reject errs).

Definition accept_all : heap -> value -> heap * verdict :=
  fun h _ => (h, Accept).

(** The properties a branch declares, in the order of [Object.entries]. *)
Definition declared_in (b : json) : list (string * json) :=
  match prop_get b "properties" with
  | Returned ps => entries (coalesce ps (JObj []))
  | Thrown _ => []
  end.

(** The declarations of all branches, earlier branches first. *)
Definition declared (bs : list json) : list (string * json) :=
  concat (map declared_in bs).

(** The assignments [obj[prop] = ...] for a list of declarations. *)
Definition record_types (l : list (string * json)) (obj : gmap string string)
  : gmap string string :=
  fold_left (fun (obj : gmap string string) '(prop, def) => <[prop := prop_type def]> obj) l obj.

(** [undefined] or [null]. *)
Definition nullish (o : option json) : Prop := o = None \/ o = Some JNull.

(** Which branches a schema object has. *)
Definition branches_are (l : list (string * json)) (bs : list json) : Prop :=
  assoc "anyOf" l = Some (JArr bs) \/
  (nullish (assoc "anyOf" l) /\ assoc "allOf" l = Some (JArr bs)) \/
  (nullish (assoc "anyOf" l) /\ nullish (assoc "allOf" l) /\ bs = [JObj l]).


(** The value stored for a known property. *)
Definition coerced (coerceTypes : option bool) (ty : string) (v : value) : value :=
  if truthy coerceTypes then coerceType ty v else v.

(** The value stored for a property that is not skipped. *)
Definition coerced_as (coerceTypes : option bool) (t : known_type) (v : value) : value :=
  if truthy coerceTypes then coerce_known t v else v.

(** What the loop over the names [ks] makes of the fresh record [mp], reading
    the record [m]. *)
Definition copy_props (known : gmap string string) (coerceTypes : option bool)
    (m : gmap string value) (ks : list string) (mp : gmap string value)
  : gmap string value :=
  fold_left (fun (acc : gmap string value) k =>
               match known_type_of known k with
               | Some t => rec_assign k (coerced_as coerceTypes t (default VUndefined (m !! k))) acc
               | None => acc
               end) ks mp.

(** The record built for [m] when unknown properties are stripped. *)
Definition stripped (known : gmap string string) (coerceTypes : option bool)
    (m : gmap string value) : gmap string value :=
  copy_props known coerceTypes m (map_to_list m).*1 ∅.

(** The schema of the examples of the specification. *)
Definition age_schema : json :=
  JObj [("properties", JObj [("age", JObj [("type", JStr "integer")])])].

(** Coercion in place: with coercion on and stripping off, [processedData]
    is [data] itself, and the loop overwrites the properties of the input
    record that it does not skip. *)
Definition coerce_in_place (known : gmap string string) (m : gmap string value)
    (ks : list string) : gmap string value :=
  fold_left (fun (acc : gmap string value) k =>
               match known_type_of known k with
               | Some t => rec_assign k (coerce_known t (default VUndefined (acc !! k))) acc
               | None => acc
               end) ks m.

(** The record a coercion in place leaves. *)
Definition coerced_record (known : gmap string string) (m : gmap string value)
  : gmap string value :=
  coerce_in_place known m (map_to_list m).*1.

(** A checker that does what the checker Ajv compiles for [age_schema] does
    under the options of lines 26 to 35: with [coerceTypes] set, a record
    whose [age] is a string that spells a number is accepted, and the number
    is written into the record in the place of the string. *)
Definition coercing_check (h : heap) (v : value) : heap * verdict :=
  match v with
  | VRef l =>
      match h !! l with
      | Some (ORecord m) =>
          match m !! "age" with
          | Some (VStr s) =>
              match parseNumber s with
              | Some q => (<[l := ORecord (<[ "age" := VNum q ]> m)]> h, Accept)
              | None => (h, Reject (Some [mkError "/age" "type"]))
              end
          | _ => (h, Accept)
          end
      | _ => (h, Reject (Some [mkError "" "type"]))
      end
  | _ => (h, Reject (Some [mkError "" "type"]))
  end.

(** The decimal digit [d] as a character. *)
Definition digit_char (d : nat) : ascii := ascii_of_nat (48 + d).

(** The numeral that the decimal digits [ds] spell, and the number it
    denotes. *)
Definition numeral (ds : list nat) : string :=
  string_of_list_ascii (digit_char <$> ds).

Definition numeral_value (ds : list nat) : Z :=
  fold_left (fun acc d => 10 * acc + Z.of_nat d) ds 0.

Definition minus_sign (neg : bool) : string := if neg then "-" else "".

Definition signed (neg : bool) (z : Z) : Z := if neg then - z else z.

(** Numeric-looking strings and the numbers they spell, said without the
    parser: an optional minus sign, one or more decimal digits and,
    optionally, a point followed by one or more decimal digits.  The digits
    [ds] before the point and [fs] after it spell the number
    [ds + fs / 10 ^ length fs], kept in lowest terms. *)
Inductive numeric_looking : string -> Q -> Prop :=
| NL_integer (neg : bool) (ds : list nat) :
    ds <> [] -> Forall (fun d => (d < 10)%nat) ds ->
    numeric_looking (minus_sign neg +:+ numeral ds)
                    (signed neg (numeral_value ds) # 1)
| NL_decimal (neg : bool) (ds fs : list nat) :
    ds <> [] -> fs <> [] ->
    Forall (fun d => (d < 10)%nat) ds -> Forall (fun d => (d < 10)%nat) fs ->
    numeric_looking (minus_sign neg +:+ numeral ds +:+ "." +:+ numeral fs)
                    (Qred (signed neg (numeral_value ds * 10 ^ Z.of_nat (length fs)
                                       + numeral_value fs)
                           # Z.to_pos (10 ^ Z.of_nat (length fs)))).

(** The character [c] occurs in [s]. *)
Fixpoint has_char (c : ascii) (s : string) : bool :=
  match s with
  | EmptyString => false
  | String c' r => Ascii.eqb c' c || has_char c r
  end.

(** What the loop over the path parameters asks of one of them: the first
    request validator with its name exists and is not declared optional for
    a parameter the path requires. *)
Definition param_served (request : list SchemaValidatorConfig) (pp : PathParam) : Prop :=
  exists v, List.find (has_name (pp_name pp)) request = Some v /\
            ~ (cfg_required v = Some false /\ pp_required pp = true).

(** Two objects of the same kind and extent: records with the same property
    names, or arrays of the same length. *)
Definition same_shape (o o' : object) : Prop :=
  match o, o' with
  | ORecord m, ORecord m' => dom m' = dom m
  | OArray es, OArray es' => length es' = length es
  | _, _ => False
  end.

(** Every object of [h] is still there in [h'], with the same shape. *)
Definition keeps_shapes (h h' : heap) : Prop :=
  forall l o, h !! l = Some o -> exists o', h' !! l = Some o' /\ same_shape o o'.


(** A value that is not a reference to an object. *)
Definition is_primitive (v : value) : bool :=
  match v with
  | VRef _ => false
  | _ => true
  end.

(** * Properties *)

(** ** The error reporter *)

Lemma fold_report_snoc l e r :
  fold_left report_step (l ++ [e]) r = report_step (fold_left report_step l r) e.
Proof. by rewrite fold_left_app. Qed.

(** An error is dropped exactly when its path contains a recorded union
    path. *)
Lemma report_step_dropped r e :
  report_step r e = r <->
  existsb (fun path => includes (instancePath e) path) (unionPaths r) = true.
Proof.
  unfold report_step.
  destruct (existsb _ _) eqn:E; split; try done.
  intros H. apply (f_equal topLevelErrors) in H. simpl in H.
  apply (f_equal length) in H. rewrite length_app in H. simpl in H. lia.
Qed.

Lemma report_step_kept r e :
  existsb (fun path => includes (instancePath e) path) (unionPaths r) = false ->
  topLevelErrors (report_step r e) = topLevelErrors r ++ [e] /\
  unionPaths (report_step r e) =
    unionPaths r ++ (if is_union_keyword (keyword e) then [instancePath e] else []).
Proof.
  intros E. unfold report_step. rewrite E. simpl. split; [done|].
  destruct (is_union_keyword _); [done | by rewrite app_nil_r].
Qed.

(** The recorded union paths are the paths of the kept union errors. *)
Lemma unionPaths_kept l :
  let r := fold_left report_step l reporter0 in
  unionPaths r = union_paths_of (topLevelErrors r).
Proof.
  induction l as [|e l IH] using rev_ind; [done|].
  simpl in *. rewrite fold_report_snoc.
  set (r := fold_left report_step l reporter0) in *.
  destruct (existsb (fun path => includes (instancePath e) path) (unionPaths r)) eqn:E.
  - apply report_step_dropped in E. by rewrite E.
  - destruct (report_step_kept r e E) as [-> ->].
    unfold union_paths_of. rewrite List.filter_app, List.map_app, IH. f_equal.
    simpl. by destruct (is_union_keyword _).
Qed.

(** The kept errors keep their order. *)
Lemma kept_sublist l r :
  exists k, topLevelErrors (fold_left report_step l r) = topLevelErrors r ++ k /\ sublist k l.
Proof.
  revert r. induction l as [|e l IH]; intros r; simpl.
  - exists []. by rewrite app_nil_r.
  - destruct (IH (report_step r e)) as (k & Hk & Hs). rewrite Hk.
    destruct (existsb (fun path => includes (instancePath e) path) (unionPaths r)) eqn:E.
    + apply report_step_dropped in E. rewrite E.
      exists k. split; [done | by apply sublist_cons].
    + destruct (report_step_kept r e E) as [-> _].
      exists (e :: k). split; [by rewrite <- app_assoc | by apply sublist_skip].
Qed.

(** Where an error lands: after the errors [pre], error [e] is dropped when
    its path contains the path of a union error kept from [pre], and is
    appended otherwise. *)
Lemma report_next pre e :
  let r := fold_left report_step pre reporter0 in
  topLevelErrors (fold_left report_step (pre ++ [e]) reporter0) =
    if existsb (fun path => includes (instancePath e) path)
               (union_paths_of (topLevelErrors r))
    then topLevelErrors r
    else topLevelErrors r ++ [e].
Proof.
  simpl. rewrite fold_report_snoc, <- unionPaths_kept.
  destruct (existsb _ _) eqn:E.
  - apply report_step_dropped in E. by rewrite E.
  - by destruct (report_step_kept _ e E) as [-> _].
Qed.

(** The example of the specification: the entry under the union path is
    suppressed. *)
Example report_spec_example :
  errors (Exceptions.AjvValidationException body
            (Some [mkError "/a" "oneOf"; mkError "/a/b" "type"; mkError "/c" "type"]))
  = [mkError "/a" "oneOf"; mkError "/c" "type"].
Proof. reflexivity. Qed.

(** C1, at an input that separates containment from prefix: the path [/b/a]
    does not start with the recorded union path [/a], it only contains it,
    and the reporter drops the error all the same. *)
Theorem report_drops_path_containing_union_path :
  startsWith "/b/a" "/a" = false /\
  includes "/b/a" "/a" = true /\
  errors (Exceptions.AjvValidationException body
            (Some [mkError "/a" "oneOf"; mkError "/b/a" "type"]))
  = [mkError "/a" "oneOf"].
Proof. repeat split. Qed.

(** ** The store *)

Lemma lookup_alloc (h : heap) o : (h ++ [o]) !! length h = Some o.
Proof. by apply list_lookup_middle. Qed.

Lemma lookup_alloc_old (h : heap) o l x : h !! l = Some x -> (h ++ [o]) !! l = Some x.
Proof. intros H. by apply lookup_app_l_Some. Qed.

Lemma insert_alloc (h : heap) o o' : <[length h := o']> (h ++ [o]) = h ++ [o'].
Proof.
  rewrite insert_app_r_alt by lia. by rewrite Nat.sub_diag.
Qed.

Lemma get_elem_alloc (h : heap) es i :
  get_elem (h ++ [OArray es]) (length h) i = default VUndefined (es !! i).
Proof. unfold get_elem. by rewrite lookup_alloc. Qed.

Lemma set_elem_alloc (h : heap) es i v :
  set_elem (length h) i v (h ++ [OArray es]) = h ++ [OArray (<[i := v]> es)].
Proof. unfold set_elem. by rewrite lookup_alloc, insert_alloc. Qed.

Lemma array_length_alloc (h : heap) es :
  array_length (h ++ [OArray es]) (length h) = length es.
Proof. unfold array_length. by rewrite lookup_alloc. Qed.

(** A reference that is not a record of [h] is not one after the wrapper
    array has been allocated either. *)
Lemma isObj_alloc_array (h : heap) es v :
  isObj (h ++ [OArray es]) v = isObj h v.
Proof.
  destruct v as [| | | | |l]; try done. unfold isObj.
  destruct (h !! l) as [o|] eqn:E.
  - by rewrite (lookup_alloc_old _ _ _ _ E).
  - apply lookup_ge_None_1 in E.
    destruct (decide (l = length h)) as [->|Hne].
    + by rewrite lookup_alloc.
    + rewrite lookup_ge_None_2; [done|]. rewrite length_app. simpl. lia.
Qed.

Lemma coerceType_undefined ty : coerceType ty VUndefined = VUndefined.
Proof. unfold coerceType. by repeat case_match. Qed.

(** ** [validate] without transformation *)

Section ValidateFacts.
Context (type : ValidatorType) (schema : json).
Context (coerceTypes stripUnknownProps required : option bool).
Context (check : heap -> value -> heap * verdict).

#[local] Abbreviation transform' := (transform schema coerceTypes stripUnknownProps).
#[local] Abbreviation validate' :=
  (validate type schema coerceTypes stripUnknownProps required check).

Lemma transform_off h v :
  truthy coerceTypes = false -> truthy stripUnknownProps = false ->
  transform' h v = Returned (h, v).
Proof. intros Hc Hs. unfold transform. by rewrite Hc, Hs. Qed.

(** Reading the schema can only fail with a [TypeError]. *)
Lemma prop_get_throws j k e : prop_get j k = Thrown e -> e = TypeError.
Proof. destruct j; simpl; congruence. Qed.

Lemma reduce_throws bs obj e : reduce bs obj = Thrown e -> e = TypeError.
Proof.
  revert obj. induction bs as [|b bs IH]; intros obj; simpl; [done|].
  unfold reduce_step. destruct (prop_get b "properties") eqn:E; simpl.
  - apply IH.
  - intros [= <-]. by apply prop_get_throws in E.
Qed.

Lemma knownPropTypes_throws j e : knownPropTypes j = Thrown e -> e = TypeError.
Proof.
  unfold knownPropTypes, branches_of.
  destruct (prop_get j "anyOf") eqn:E1; simpl;
    [|intros [= <-]; by apply prop_get_throws in E1].
  destruct (prop_get j "allOf") eqn:E2; simpl;
    [|intros [= <-]; by apply prop_get_throws in E2].
  destruct (coalesce _ _); simpl; try congruence.
  apply reduce_throws.
Qed.

Lemma transform_throws h v e : transform' h v = Thrown e -> e = TypeError.
Proof.
  unfold transform.
  destruct (_ || _); [|done].
  destruct (array_loc h v) as [l|]; simpl.
  - destruct (prop_get schema "items") eqn:E1; simpl;
      [|intros [= <-]; by apply prop_get_throws in E1].
    destruct (knownPropTypes _) eqn:E; simpl; [done|].
    intros [= <-]. by apply knownPropTypes_throws in E.
  - destruct (knownPropTypes schema) eqn:E; simpl; [done|].
    intros [= <-]. by apply knownPropTypes_throws in E.
Qed.

(** The only failure [validate] raises itself is the one it builds from
    the errors of a rejecting check. *)
Lemma validate_throws_inv st v st' b :
  validate' st v = (st', Thrown (BadRequest b)) ->
  exists errs, b = Exceptions.AjvValidationException type errs.
Proof.
  unfold validate, validate_tail.
  destruct (transform _ _ _ _ _) as [[h p]|e] eqn:E.
  - destruct (_ && _); [done|].
    destruct (check h p) as [h' [|errs]]; [done|].
    intros [= _ <-]. by exists errs.
  - apply transform_throws in E. by subst e.
Qed.
End ValidateFacts.

(** ** The failure [validate] raises *)

(** C2, as the code has it: when the compiled checker rejects the transformed
    data with the raw errors [errs], [validate] raises the failure whose
    body has status code 400, the message [Validation failed (<kind>)] and
    the errors the reporter keeps from [errs]; every failure of that class
    that [validate] raises has this shape.  The revision of the class that
    is generic in the schemas builds the same body with the message
    [Validation error (<kind>)]. *)
Theorem validate_failure_body type schema coerceTypes stripUnknownProps required
    check st v :
  (forall h p h' errs,
     transform schema coerceTypes stripUnknownProps (st_heap st) v = Returned (h, p) ->
     (p = VUndefined -> truthy required = true) ->
     check h p = (h', Reject errs) ->
     validate type schema coerceTypes stripUnknownProps required check st v =
       ({| st_heap := h'; st_checked := st_checked st ++ [p] |},
        Thrown (BadRequest
          {| statusCode := 400;
             rb_message := "Validation failed (" +:+ type_str type +:+ ")";
             errors := topLevelErrors (report_loop errs) |}))) /\
  (forall st' b,
     validate type schema coerceTypes stripUnknownProps required check st v
       = (st', Thrown (BadRequest b)) ->
     statusCode b = 400 /\
     rb_message b = "Validation failed (" +:+ type_str type +:+ ")" /\
     exists errs, errors b = topLevelErrors (report_loop errs)) /\
  (forall errs,
     ExceptionsGeneric.AjvValidationException type errs =
       {| statusCode := 400;
          rb_message := "Validation error (" +:+ type_str type +:+ ")";
          errors := topLevelErrors (report_loop errs) |}).
Proof.
  split; [|split; [|done]].
  - intros h p h' errs Ht Hreq Hc.
    unfold validate, validate_tail. rewrite Ht.
    assert ((match p with VUndefined => true | _ => false end)
            && negb (truthy required) = false) as ->.
    { destruct p; try done. by rewrite Hreq. }
    by rewrite Hc.
  - intros st' b Hv. apply validate_throws_inv in Hv as [errs ->].
    repeat split. by exists errs.
Qed.

Lemma validate_failure_body_witness :
  validate query (JObj []) None None None
    (reject_all (Some [mkError "/a" "anyOf"; mkError "/a" "type"]))
    {| st_heap := []; st_checked := [] |} (VStr "x") =
  ({| st_heap := []; st_checked := [VStr "x"] |},
   Thrown (BadRequest
     {| statusCode := 400;
        rb_message := "Validation failed (query)";
        errors := [mkError "/a" "anyOf"] |})).
Proof.
  refine (proj1 (validate_failure_body query (JObj []) None None None
    (reject_all (Some [mkError "/a" "anyOf"; mkError "/a" "type"]))
    {| st_heap := []; st_checked := [] |} (VStr "x")) [] (VStr "x") []
    (Some [mkError "/a" "anyOf"; mkError "/a" "type"]) _ _ _);
    [reflexivity | discriminate | reflexivity].
Defined.

(** C2 as the specification words it fails: the failure [validate] raises
    for a body validator carries [Validation failed (body)], not
    [Validation error (body)]. *)
Lemma validate_message_not_validation_error :
  ~ (forall type schema coerceTypes stripUnknownProps required check st v st' b,
       validate type schema coerceTypes stripUnknownProps required check st v
         = (st', Thrown (BadRequest b)) ->
       statusCode b = 400 /\
       rb_message b = "Validation error (" +:+ type_str type +:+ ")" /\
       exists errs, errors b = topLevelErrors (report_loop errs)).
Proof.
  intros H.
  destruct (H body (JObj []) None None None (reject_all (Some []))
              {| st_heap := []; st_checked := [] |} VNull _ _ eq_refl)
    as (_ & Hm & _).
  discriminate Hm.
Qed.

(** ** Optional input *)

(** C5: a validator that is not required returns [undefined] for the input
    [undefined] without calling the compiled checker and without raising;
    the store keeps every object it had.  The schema is one whose union
    branches can be read, as every compiled schema is. *)
Theorem validate_undefined_optional type schema coerceTypes stripUnknownProps required
    check st :
  truthy required = false ->
  (truthy coerceTypes || truthy stripUnknownProps = true ->
   exists known, knownPropTypes schema = Returned known) ->
  exists h',
    validate type schema coerceTypes stripUnknownProps required check st VUndefined
      = ({| st_heap := h'; st_checked := st_checked st |}, Returned VUndefined) /\
    forall l o, st_heap st !! l = Some o -> h' !! l = Some o.
Proof.
  intros Hreq Hread. unfold validate, validate_tail, transform.
  destruct (truthy coerceTypes || truthy stripUnknownProps) eqn:Hflags.
  - destruct (Hread eq_refl) as [known Hk]. simpl. rewrite Hk. simpl.
    rewrite array_length_alloc. simpl.
    unfold elem_step. rewrite get_elem_alloc. simpl.
    set (h := st_heap st).
    assert (match scalar_type schema with
            | Some ty =>
                if truthy coerceTypes
                then set_elem (length h) 0 (coerceType ty VUndefined)
                       (h ++ [OArray [VUndefined]])
                else h ++ [OArray [VUndefined]]
            | None => h ++ [OArray [VUndefined]]
            end = h ++ [OArray [VUndefined]]) as ->.
    { destruct (scalar_type schema); [|done].
      destruct (truthy coerceTypes); [|done].
      by rewrite coerceType_undefined, set_elem_alloc. }
    rewrite get_elem_alloc. simpl. rewrite Hreq. simpl.
    eexists. split; [done|]. intros l o. apply lookup_alloc_old.
  - simpl. rewrite Hreq. simpl. by exists (st_heap st).
Qed.

Lemma validate_undefined_optional_witness :
  exists h',
    validate query (JObj [("type", JStr "string")]) (Some true) None (Some false)
      accept_all {| st_heap := []; st_checked := [] |} VUndefined
      = ({| st_heap := h'; st_checked := [] |}, Returned VUndefined) /\
    forall l o, ([] : heap) !! l = Some o -> h' !! l = Some o.
Proof.
  apply (validate_undefined_optional query (JObj [("type", JStr "string")])
           (Some true) None (Some false) accept_all
           {| st_heap := []; st_checked := [] |}).
  - reflexivity.
  - intros _. eexists. reflexivity.
Defined.

(** ** Conformant input *)

(** C6 as the specification words it fails: the compiled checker is Ajv's,
    set up to coerce, to fill in defaults and to remove additional
    properties, and it writes the data it accepts.  With coercion and
    stripping off in the validator, and a checker that coerces as Ajv does,
    the input [{age: "42"}] is accepted and [validate] returns the same
    reference, but the record is then [{age: 42}]: the data has changed. *)
Lemma validate_returns_rewritten_input :
  ~ (forall type schema coerceTypes stripUnknownProps required check st v h',
       truthy coerceTypes = false -> truthy stripUnknownProps = false ->
       check (st_heap st) v = (h', Accept) ->
       exists st',
         validate type schema coerceTypes stripUnknownProps required check st v
           = (st', Returned v) /\
         forall l, v = VRef l -> st_heap st' !! l = st_heap st !! l).
Proof.
  intros H.
  assert (coercing_check [ORecord {[ "age" := VStr "42" ]}] (VRef 0%nat) =
            ([ORecord {[ "age" := VNum (42 # 1) ]}], Accept)) as Hok
    by (vm_compute; reflexivity).
  destruct (H body age_schema None None (Some true) coercing_check
              {| st_heap := [ORecord {[ "age" := VStr "42" ]}]; st_checked := [] |}
              (VRef 0%nat) _ eq_refl eq_refl Hok)
    as (st' & Hv & Hsame).
  specialize (Hsame 0%nat eq_refl).
  vm_compute in Hv. injection Hv as <-.
  vm_compute in Hsame. discriminate Hsame.
Qed.

(** C6, as the code has it: with coercion and stripping off, [validate]
    hands its input to the compiled checker as it is and, when the checker
    accepts it, returns that very value.  [validate] itself writes nothing:
    the store is as the checker left it (and as it was, the checker not
    called, for the input [undefined] of a validator that is not required),
    so that every object the checker left as it was is unchanged, and the
    whole store is unchanged when the checker wrote nothing. *)
Theorem validate_identity_on_conformant type schema coerceTypes stripUnknownProps
    required check st v h' :
  truthy coerceTypes = false ->
  truthy stripUnknownProps = false ->
  check (st_heap st) v = (h', Accept) ->
  exists st',
    validate type schema coerceTypes stripUnknownProps required check st v
      = (st', Returned v) /\
    ((v = VUndefined /\ truthy required = false /\
      st' = {| st_heap := st_heap st; st_checked := st_checked st |}) \/
     (~ (v = VUndefined /\ truthy required = false) /\
      st' = {| st_heap := h'; st_checked := st_checked st ++ [v] |})) /\
    (forall l, h' !! l = st_heap st !! l -> st_heap st' !! l = st_heap st !! l) /\
    (h' = st_heap st -> st_heap st' = st_heap st).
Proof.
  intros Hc Hs Hok. unfold validate, validate_tail.
  rewrite (transform_off schema coerceTypes stripUnknownProps _ _ Hc Hs).
  destruct (_ && _) eqn:E.
  - apply andb_true_iff in E as [Hu Hr]. apply negb_true_iff in Hr.
    destruct v; try done. eexists. split; [done|]. split; [by left|]. done.
  - rewrite Hok. eexists. split; [done|]. split; [|done].
    right. split; [|done]. intros [-> Hr]. by rewrite Hr in E.
Qed.

(** A record that conforms, under a checker that writes nothing: the same
    reference comes back and the store is as it was. *)
Lemma validate_identity_on_conformant_witness :
  let h := [ORecord {[ "q" := VNum (7 # 2) ]}] in
  exists st',
    validate body (JObj []) (Some false) None (Some true) accept_all
      {| st_heap := h; st_checked := [] |} (VRef 0%nat)
      = (st', Returned (VRef 0%nat)) /\
    ((VRef 0%nat = VUndefined /\ truthy (Some true) = false /\
      st' = {| st_heap := h; st_checked := [] |}) \/
     (~ (VRef 0%nat = VUndefined /\ truthy (Some true) = false) /\
      st' = {| st_heap := h; st_checked := [] ++ [VRef 0%nat] |})) /\
    (forall l, h !! l = h !! l -> st_heap st' !! l = h !! l) /\
    (h = h -> st_heap st' = h).
Proof.
  intros h.
  apply (validate_identity_on_conformant body (JObj []) (Some false) None (Some true)
           accept_all {| st_heap := h; st_checked := [] |} (VRef 0%nat) h);
    reflexivity.
Defined.

(** ** The builder *)

(** C4 as the specification words it fails: a configuration with a kind and
    a name but no schema makes the builder fail, although its schema is not
    a present, malformed one.  (The default string schema of a param or
    query validator is filled in by the [Validate] decorator before it calls
    the builder.) *)
Lemma buildSchemaValidator_rejects_absent_schema :
  ~ (forall IsSchema compile cfg,
       (exists msg, buildSchemaValidator IsSchema compile cfg = Thrown (ConfigError msg)) <->
       (cfg_type cfg = None \/ cfg_name cfg = None \/ cfg_name cfg = Some "" \/
        exists s, cfg_schema cfg = Some s /\ IsSchema s = false)).
Proof.
  intros H.
  destruct (H (fun _ => true) (fun _ => Some accept_all)
    {| cfg_type := Some param; cfg_schema := None; cfg_coerceTypes := Some true;
       cfg_stripUnknownProps := None; cfg_name := Some "id";
       cfg_required := Some true |}) as [Hfail _].
  destruct Hfail as [Hf|[Hf|[Hf|(s & Hf & _)]]]; try discriminate Hf.
  eexists. reflexivity.
Qed.

(** C4, as the code has it: the builder fails with a configuration error
    exactly when the kind is absent, the name is absent or empty, or the
    schema is absent or not recognised by the schema guard; with a kind, a
    non-empty name and a schema that the guard recognises and that compiles,
    it returns a validator with the name, the schema and the compiled
    checker; when the schema does not compile, the compiler's error comes
    through. *)
Theorem buildSchemaValidator_outcome IsSchema compile cfg :
  ((exists msg, buildSchemaValidator IsSchema compile cfg = Thrown (ConfigError msg)) <->
   (cfg_type cfg = None \/ cfg_name cfg = None \/ cfg_name cfg = Some "" \/
    cfg_schema cfg = None \/
    exists s, cfg_schema cfg = Some s /\ IsSchema s = false)) /\
  (forall type name schema,
     cfg_type cfg = Some type -> cfg_name cfg = Some name -> name <> "" ->
     cfg_schema cfg = Some schema -> IsSchema schema = true ->
     match compile schema with
     | Some check =>
         exists v,
           buildSchemaValidator IsSchema compile cfg = Returned v /\
           sv_name v = name /\ sv_schema v = schema /\ sv_check v = check /\
           sv_validate v =
             validate type schema (cfg_coerceTypes cfg) (cfg_stripUnknownProps cfg)
               (cfg_required cfg) check
     | None => buildSchemaValidator IsSchema compile cfg = Thrown CompileError
     end).
Proof.
  unfold buildSchemaValidator, TypeGuard_IsSchema.
  destruct cfg as [ty sc co st nm rq]; simpl. split.
  - destruct ty as [ty|]; [|split; eauto].
    destruct nm as [[|c nm]|]; [split; eauto | | split; eauto].
    destruct sc as [sc|]; simpl; [|split; eauto].
    destruct (IsSchema sc) eqn:E; simpl.
    + split.
      * intros [msg Hm]. destruct (compile sc); discriminate Hm.
      * intros [H|[H|[H|[H|(s & [= <-] & H)]]]]; congruence.
    + split; [|by eauto]. intros _. do 4 right. by exists sc.
  - intros type name schema -> -> Hne -> Hs. rewrite Hs. simpl.
    destruct name as [|c name]; [done|].
    destruct (compile schema) as [check|]; [|done].
    eexists. by repeat split.
Qed.

Lemma buildSchemaValidator_outcome_witness :
  exists v,
    buildSchemaValidator (fun _ => true) (fun _ => Some accept_all)
      {| cfg_type := Some param; cfg_schema := Some string_schema;
         cfg_coerceTypes := Some true; cfg_stripUnknownProps := None;
         cfg_name := Some "id"; cfg_required := Some true |} = Returned v /\
    sv_name v = "id" /\ sv_schema v = string_schema /\ sv_check v = accept_all /\
    sv_validate v =
      validate param string_schema (Some true) None (Some true) accept_all.
Proof.
  apply (proj2 (buildSchemaValidator_outcome (fun _ => true) (fun _ => Some accept_all)
    {| cfg_type := Some param; cfg_schema := Some string_schema;
       cfg_coerceTypes := Some true; cfg_stripUnknownProps := None;
       cfg_name := Some "id"; cfg_required := Some true |})
    param "id" string_schema); (reflexivity || discriminate).
Defined.

(** What a built validator is: its [validate] is the closure over the kind,
    the schema, the flags of the configuration and the compiled checker, so
    that the properties of [validate] below are properties of every built
    validator. *)
Lemma buildSchemaValidator_inv IsSchema compile cfg sv :
  buildSchemaValidator IsSchema compile cfg = Returned sv ->
  exists type check,
    cfg_type cfg = Some type /\
    cfg_name cfg = Some (sv_name sv) /\ sv_name sv <> "" /\
    cfg_schema cfg = Some (sv_schema sv) /\
    IsSchema (sv_schema sv) = true /\
    compile (sv_schema sv) = Some check /\ sv_check sv = check /\
    sv_validate sv =
      validate type (sv_schema sv) (cfg_coerceTypes cfg) (cfg_stripUnknownProps cfg)
        (cfg_required cfg) check.
Proof.
  unfold buildSchemaValidator, TypeGuard_IsSchema.
  destruct cfg as [ty sc co st nm rq]; simpl.
  destruct ty as [ty|]; [|done].
  destruct nm as [[|c nm]|]; [done| |done].
  destruct sc as [sc|]; simpl; [|done].
  destruct (IsSchema sc) eqn:E; simpl; [|done].
  destruct (compile sc) as [check|] eqn:Ec; [|done].
  intros [= <-]. simpl. exists ty, check. by repeat split.
Qed.

(** The schema a param or query validator lacks is filled in by the
    decorator, so that the builder is given the string schema. *)
Lemma request_default_schema IsSchema compile methodName cfg cfg' :
  cfg_type cfg = Some param \/ cfg_type cfg = Some query ->
  cfg_schema cfg = None ->
  requestValidatorConfig methodName cfg = Some cfg' ->
  cfg_schema cfg' = Some string_schema /\
  (forall name check,
     cfg_name cfg = Some name -> name <> "" ->
     IsSchema string_schema = true -> compile string_schema = Some check ->
     exists v, buildSchemaValidator IsSchema compile cfg' = Returned v /\
               sv_schema v = string_schema /\ sv_name v = name).
Proof.
  intros Hty Hsc. unfold requestValidatorConfig.
  destruct Hty as [-> | ->]; rewrite Hsc; intros [= <-]; (split; [done|]);
    intros name check Hn Hne Hs Hc; unfold buildSchemaValidator; simpl;
    rewrite Hn, Hs, Hc; simpl; destruct name; try done; by eexists.
Qed.

(** ** The known-property type map *)

Lemma record_types_app l1 l2 obj :
  record_types (l1 ++ l2) obj = record_types l2 (record_types l1 obj).
Proof. apply fold_left_app. Qed.



Lemma record_types_dom l (obj : gmap string string) p :
  is_Some (record_types l obj !! p) <-> is_Some (obj !! p) \/ p ∈ l.*1.
Proof.
  revert obj. induction l as [|[q d] l IH]; intros obj; simpl.
  - split; [by left | intros [H|H]; [done | by apply elem_of_nil in H]].
  - fold (record_types l (<[q := prop_type d]> obj)). rewrite IH.
    rewrite elem_of_cons. destruct (decide (q = p)) as [->|Hne].
    + rewrite lookup_insert_eq. split; [by right; left | by left].
    + rewrite lookup_insert_ne by done. split; [intros [H|H]; auto | intros [H|[H|H]]; auto; done].
Qed.

Lemma reduce_step_declared obj b :
  b <> JNull -> reduce_step obj b = Returned (record_types (declared_in b) obj).
Proof. intros Hb. unfold reduce_step, declared_in. by destruct b. Qed.

Lemma reduce_declared bs obj :
  Forall (fun b => b <> JNull) bs ->
  reduce bs obj = Returned (record_types (declared bs) obj).
Proof.
  intros Hbs. revert obj. induction Hbs as [|b bs Hb _ IH]; intros obj; [done|].
  simpl. rewrite reduce_step_declared by done. simpl.
  unfold declared. simpl. fold (declared bs). by rewrite record_types_app, IH.
Qed.

Lemma branches_of_obj l bs : branches_are l bs -> branches_of (JObj l) = Returned bs.
Proof.
  unfold branches_of, branches_are, nullish. simpl.
  intros [-> |[[[-> | ->] ->]|[[-> | ->] [[-> | ->] ->]]]]; done.
Qed.



(** A schema object whose branches are there can be read. *)
Lemma knownPropTypes_returns l bs :
  branches_are l bs -> Forall (fun b => b <> JNull) bs ->
  knownPropTypes (JObj l) = Returned (record_types (declared bs) ∅).
Proof.
  intros Hbs Hnn. unfold knownPropTypes. rewrite (branches_of_obj l bs Hbs). simpl.
  by apply reduce_declared.
Qed.




(** ** The inner loop *)

Lemma rec_assign_other k v (m : gmap string value) :
  k <> "__proto__" -> rec_assign k v m = <[k := v]> m.
Proof.
  intros Hk. unfold rec_assign. destruct (m !! k); [done|].
  by apply String.eqb_neq in Hk as ->.
Qed.

Lemma rec_assign_own k v (m : gmap string value) :
  is_Some (m !! k) -> rec_assign k v m = <[k := v]> m.
Proof. intros [x Hx]. unfold rec_assign. by rewrite Hx. Qed.

Lemma rec_assign_proto v (m : gmap string value) :
  m !! "__proto__" = None -> rec_assign "__proto__" v m = m.
Proof. intros Hm. unfold rec_assign. by rewrite Hm. Qed.

Lemma rec_assign_twice k v v' (m : gmap string value) :
  rec_assign k v' (rec_assign k v m) = rec_assign k v' m.
Proof.
  unfold rec_assign at 2. destruct (m !! k) as [x|] eqn:Em.
  - rewrite !rec_assign_own; [by rewrite insert_insert_eq | by exists x |].
    rewrite lookup_insert_eq. by eexists.
  - destruct (String.eqb k "__proto__") eqn:Ek; [done|].
    apply String.eqb_neq in Ek. by rewrite !rec_assign_other, insert_insert_eq.
Qed.

Lemma rec_assign_lookup_ne k k' v (m : gmap string value) :
  k <> k' -> rec_assign k v m !! k' = m !! k'.
Proof.
  intros Hne. unfold rec_assign.
  destruct (m !! k); [by rewrite lookup_insert_ne|].
  destruct (String.eqb k "__proto__"); [done | by rewrite lookup_insert_ne].
Qed.

Lemma rec_assign_no_proto k v (m : gmap string value) :
  m !! "__proto__" = None -> rec_assign k v m !! "__proto__" = None.
Proof.
  intros Hm. destruct (decide (k = "__proto__")) as [->|Hne].
  - by rewrite rec_assign_proto.
  - by rewrite rec_assign_lookup_ne.
Qed.

Lemma known_type_of_proto known : known_type_of known "__proto__" = Some Inherited.
Proof. reflexivity. Qed.

(** What the lookup finds for a name other than [__proto__]. *)
Lemma known_type_of_other known k :
  k <> "__proto__" ->
  known_type_of known k =
    match known !! k with
    | Some ty => Some (TypeName ty)
    | None => if existsb (String.eqb k) object_prototype_names
              then Some Inherited else None
    end.
Proof. intros Hk. unfold known_type_of. by apply String.eqb_neq in Hk as ->. Qed.

Lemma existsb_eqb_elem_of k (l : list string) :
  existsb (String.eqb k) l = true <-> k ∈ l.
Proof.
  rewrite existsb_exists. split.
  - intros (x & Hin & ->%String.eqb_eq). by apply list_elem_of_In.
  - intros Hin. exists k. split; [by apply list_elem_of_In | apply String.eqb_refl].
Qed.

(** The lookup is [undefined] exactly for the names that are neither in the
    map nor inherited. *)
Lemma known_type_of_None known k :
  known_type_of known k = None <-> known !! k = None /\ k ∉ object_prototype_names.
Proof.
  destruct (decide (k = "__proto__")) as [->|Hne].
  - rewrite known_type_of_proto. split; [done|]. intros [_ Hn]. destruct Hn.
    apply existsb_eqb_elem_of. reflexivity.
  - rewrite known_type_of_other by done. destruct (known !! k); [by split; [|intros []]|].
    destruct (existsb _ _) eqn:E.
    + apply existsb_eqb_elem_of in E. split; [done | by intros [_ Hn]].
    + split; [|done]. intros _. split; [done|]. intros Hin.
      apply existsb_eqb_elem_of in Hin. congruence.
Qed.

(** A name of the map that is not [__proto__] reads its type name. *)
Lemma known_type_of_known known k ty :
  known !! k = Some ty -> k <> "__proto__" -> known_type_of known k = Some (TypeName ty).
Proof. intros Hk Hne. by rewrite known_type_of_other, Hk. Qed.

(** A name the map does not have reads an inherited member or nothing. *)
Lemma known_type_of_unknown known k :
  known !! k = None ->
  known_type_of known k = Some Inherited \/ known_type_of known k = None.
Proof.
  intros Hk. unfold known_type_of. rewrite Hk.
  destruct (String.eqb k "__proto__"); [by left|].
  destruct (existsb _ _); [by left | by right].
Qed.

Lemma set_prop_record (h : heap) l m k v :
  h !! l = Some (ORecord m) -> set_prop l k v h = <[l := ORecord (rec_assign k v m)]> h.
Proof. unfold set_prop. by intros ->. Qed.

Lemma get_prop_record (h : heap) l m k :
  h !! l = Some (ORecord m) -> get_prop h l k = default VUndefined (m !! k).
Proof. unfold get_prop. by intros ->. Qed.

Lemma props_loop_strip known coerceTypes stripUnknownProps ld lp ks (h : heap) m mp :
  truthy stripUnknownProps = true -> ld <> lp ->
  h !! ld = Some (ORecord m) -> h !! lp = Some (ORecord mp) ->
  props_loop coerceTypes stripUnknownProps known ld lp ks h =
    <[lp := ORecord (copy_props known coerceTypes m ks mp)]> h.
Proof.
  intros Hs Hne. revert h mp.
  induction ks as [|k ks IH]; intros h mp Hd Hp; simpl.
  - by rewrite list_insert_id.
  - destruct (known_type_of known k) as [t|] eqn:Ek; [|by apply IH].
    rewrite Hs. pose proof (lookup_lt_Some _ _ _ Hp) as Hlt.
    rewrite (get_prop_record h ld m k Hd), (set_prop_record h lp mp k _ Hp).
    set (v := default VUndefined (m !! k)).
    set (h1 := <[lp := ORecord (rec_assign k v mp)]> h).
    assert (h1 !! ld = Some (ORecord m)) as Hd1.
    { unfold h1. by rewrite list_lookup_insert_ne. }
    assert (h1 !! lp = Some (ORecord (rec_assign k v mp))) as Hp1.
    { unfold h1. by rewrite list_lookup_insert_eq. }
    unfold coerced_as at 1. destruct (truthy coerceTypes).
    + rewrite (get_prop_record h1 ld m k Hd1), (set_prop_record h1 lp _ k _ Hp1).
      fold v. rewrite rec_assign_twice. unfold h1. rewrite list_insert_insert_eq.
      rewrite (IH _ (rec_assign k (coerce_known t v) mp)).
      * by rewrite list_insert_insert_eq.
      * by rewrite list_lookup_insert_ne.
      * by rewrite list_lookup_insert_eq.
    + rewrite (IH _ (rec_assign k v mp)) by done. unfold h1.
      by rewrite list_insert_insert_eq.
Qed.

Lemma copy_props_lookup known coerceTypes m ks (mp : gmap string value) k :
  mp !! "__proto__" = None ->
  copy_props known coerceTypes m ks mp !! k =
    if String.eqb k "__proto__" then None
    else match known_type_of known k with
         | Some t =>
             if decide (k ∈ ks)
             then Some (coerced_as coerceTypes t (default VUndefined (m !! k)))
             else mp !! k
         | None => mp !! k
         end.
Proof.
  revert mp. induction ks as [|k' ks IH]; intros mp Hmp.
  - change (copy_props known coerceTypes m [] mp) with mp.
    destruct (String.eqb k "__proto__") eqn:Ek.
    + apply String.eqb_eq in Ek. by subst k.
    + destruct (known_type_of known k); [|done]. case_decide as Hin; [|done].
      by apply elem_of_nil in Hin.
  - change (copy_props known coerceTypes m (k' :: ks) mp) with
      (copy_props known coerceTypes m ks
         match known_type_of known k' with
         | Some t => rec_assign k' (coerced_as coerceTypes t (default VUndefined (m !! k'))) mp
         | None => mp
         end).
    rewrite IH by (destruct (known_type_of known k'); [by apply rec_assign_no_proto | done]).
    destruct (String.eqb k "__proto__") eqn:Eproto; [done|].
    apply String.eqb_neq in Eproto.
    destruct (known_type_of known k) as [t|] eqn:Ek.
    + destruct (decide (k ∈ ks)) as [Hin|Hnin].
      * rewrite decide_True; [done | by right].
      * destruct (decide (k = k')) as [->|Hne].
        -- rewrite decide_True by left.
           by rewrite Ek, rec_assign_other, lookup_insert_eq.
        -- rewrite decide_False by (intros [?|?]%elem_of_cons; done).
           destruct (known_type_of known k'); [by rewrite rec_assign_lookup_ne | done].
    + destruct (known_type_of known k') eqn:Ek'; [|done].
      rewrite rec_assign_lookup_ne; [done | congruence].
Qed.

(** Stripping keeps exactly the properties whose lookup in the
    known-property map is not [undefined], coerced when coercion is on; a
    property named [__proto__] is never an own property of the new
    record. *)
Lemma stripped_lookup known coerceTypes m k :
  stripped known coerceTypes m !! k =
    if String.eqb k "__proto__" then None
    else match known_type_of known k with
         | Some t => coerced_as coerceTypes t <$> m !! k
         | None => None
         end.
Proof.
  unfold stripped. rewrite copy_props_lookup by apply lookup_empty.
  rewrite lookup_empty.
  destruct (String.eqb k "__proto__"); [done|].
  destruct (known_type_of known k) as [t|]; [|done].
  destruct (m !! k) as [v|] eqn:Em; simpl.
  - rewrite decide_True; [done|].
    apply list_elem_of_fmap. exists (k, v). split; [done|].
    by apply elem_of_map_to_list.
  - rewrite decide_False; [done|].
    intros [[k' v] [-> Hin]]%list_elem_of_fmap.
    apply elem_of_map_to_list in Hin. simpl in Em. congruence.
Qed.

(** The properties of a stripped copy, by the kind of their name: a name of
    the map keeps its value (coerced when coercion is on), a name that is
    neither in the map nor inherited is dropped, and an inherited name other
    than [__proto__] that the map does not have keeps its value. *)
Lemma stripped_cases known coerceTypes m k :
  k <> "__proto__" ->
  (forall ty, known !! k = Some ty ->
     stripped known coerceTypes m !! k = coerced coerceTypes ty <$> m !! k) /\
  (known !! k = None -> k ∉ object_prototype_names ->
     stripped known coerceTypes m !! k = None) /\
  (known !! k = None -> k ∈ object_prototype_names ->
     stripped known coerceTypes m !! k = m !! k).
Proof.
  intros Hne. rewrite stripped_lookup.
  apply String.eqb_neq in Hne as Hb. rewrite Hb.
  rewrite known_type_of_other by done. split; [|split].
  - by intros ty ->.
  - intros -> Hn. destruct (existsb _ _) eqn:E; [|done].
    by apply existsb_eqb_elem_of in E.
  - intros -> Hin. apply existsb_eqb_elem_of in Hin as ->.
    unfold coerced_as, coerce_known. destruct (truthy coerceTypes); by destruct (m !! k).
Qed.

(** A property whose lookup in the map is [undefined] is dropped. *)
Lemma stripped_not_found known coerceTypes m k :
  known_type_of known k = None -> stripped known coerceTypes m !! k = None.
Proof.
  intros Hk. rewrite stripped_lookup, Hk. by destruct (String.eqb k "__proto__").
Qed.

(** ** The transformation of a single value *)

Lemma insert_alloc2 (h : heap) a r a' :
  <[length h := a']> ((h ++ [a]) ++ [r]) = h ++ [a'; r].
Proof.
  rewrite <- app_assoc. simpl.
  rewrite insert_app_r_alt by lia. by rewrite Nat.sub_diag.
Qed.

(** With stripping on, a record input is left alone: a fresh record is
    built next to the one-element array that wraps the input. *)
Lemma transform_strip_record schema coerceTypes stripUnknownProps (h : heap) ld m known :
  truthy stripUnknownProps = true ->
  h !! ld = Some (ORecord m) ->
  knownPropTypes schema = Returned known ->
  transform schema coerceTypes stripUnknownProps h (VRef ld) =
    Returned (h ++ [OArray [VRef (S (length h))]; ORecord (stripped known coerceTypes m)],
              VRef (S (length h))).
Proof.
  intros Hs Hd Hk. unfold transform. rewrite Hs, orb_true_r.
  unfold isArray, array_loc. rewrite Hd. simpl. rewrite Hk. simpl.
  rewrite array_length_alloc. simpl.
  unfold elem_step. rewrite get_elem_alloc. simpl.
  rewrite (lookup_alloc_old h _ ld _ Hd), Hs. simpl.
  pose proof (lookup_lt_Some _ _ _ Hd) as Hlt.
  set (h1 := h ++ [OArray [VRef ld]]).
  assert (length h1 = S (length h)) as Hlen.
  { unfold h1. rewrite length_app. simpl. lia. }
  assert ((h1 ++ [ORecord ∅]) !! ld = Some (ORecord m)) as Hd2.
  { apply lookup_alloc_old. by apply lookup_alloc_old. }
  unfold keys_of. rewrite Hd2.
  rewrite (props_loop_strip known coerceTypes stripUnknownProps ld (length h1)
             _ (h1 ++ [ORecord ∅]) m ∅ Hs); [|lia|done|apply lookup_alloc].
  fold (stripped known coerceTypes m).
  rewrite insert_alloc. subst h1.
  unfold set_elem.
  assert (((h ++ [OArray [VRef ld]]) ++ [ORecord (stripped known coerceTypes m)])
            !! length h = Some (OArray [VRef ld])) as ->.
  { apply lookup_alloc_old, lookup_alloc. }
  rewrite insert_alloc2. simpl. rewrite length_app. simpl.
  replace (length h + 1)%nat with (S (length h)) by lia.
  unfold get_elem. by rewrite list_lookup_middle.
Qed.

Lemma isArray_false (h : heap) v : isArray h v = false -> array_loc h v = None.
Proof. unfold isArray. by destruct (array_loc h v). Qed.

(** A value that is neither a record nor an array is wrapped, coerced when
    coercion is on and the schema names a scalar type, and unwrapped. *)
Lemma transform_scalar schema coerceTypes stripUnknownProps (h : heap) v known :
  truthy coerceTypes || truthy stripUnknownProps = true ->
  isObj h v = false -> isArray h v = false ->
  knownPropTypes schema = Returned known ->
  let v' := match scalar_type schema with
            | Some ty => coerced coerceTypes ty v
            | None => v
            end in
  transform schema coerceTypes stripUnknownProps h v = Returned (h ++ [OArray [v']], v').
Proof.
  intros Hf Ho Ha Hk. unfold transform. rewrite Hf.
  rewrite (isArray_false _ _ Ha). simpl. rewrite Hk. simpl.
  rewrite array_length_alloc. simpl.
  unfold elem_step. rewrite get_elem_alloc. simpl.
  rewrite isObj_alloc_array, Ho. rewrite Ha. unfold coerced.
  destruct (scalar_type schema) as [ty|]; [destruct (truthy coerceTypes)|].
  - by rewrite set_elem_alloc, get_elem_alloc.
  - by rewrite get_elem_alloc.
  - by rewrite get_elem_alloc.
Qed.

(** ** Stripping *)

Lemma knownPropTypes_age :
  knownPropTypes age_schema = Returned {[ "age" := "integer" ]}.
Proof. reflexivity. Qed.

(** The example of the specification: [{age: 42, extra: "x"}] is checked
    and returned as [{age: 42}]. *)
Example strip_example :
  validate body age_schema None (Some true) (Some true) accept_all
    {| st_heap := [ORecord (<[ "extra" := VStr "x" ]> {[ "age" := VNum (42 # 1) ]})];
       st_checked := [] |} (VRef 0%nat) =
  ({| st_heap := [ORecord (<[ "extra" := VStr "x" ]> {[ "age" := VNum (42 # 1) ]});
                  OArray [VRef 2%nat];
                  ORecord {[ "age" := VNum (42 # 1) ]}];
      st_checked := [VRef 2%nat] |},
   Returned (VRef 2%nat)).
Proof. vm_compute. reflexivity. Qed.

(** C8, at an input with a property named like a member of
    [Object.prototype]: the known-property map of the schema of the examples
    has the one name [age], and with stripping on the input
    [{age: 42, constructor: "x"}] is answered with the new record
    [{age: 42, constructor: "x"}].  The property [constructor], whose name
    is absent from the map, is not dropped: line 98 reads
    [knownPropTypes["constructor"]], which is the function the map
    inherits and not [undefined]. *)
Theorem validate_strip_keeps_inherited_name :
  knownPropTypes age_schema = Returned {[ "age" := "integer" ]} /\
  ({[ "age" := "integer" ]} : gmap string string) !! "constructor" = None /\
  validate body age_schema None (Some true) (Some true) accept_all
    {| st_heap := [ORecord (<[ "constructor" := VStr "x" ]> {[ "age" := VNum (42 # 1) ]})];
       st_checked := [] |} (VRef 0%nat) =
  ({| st_heap := [ORecord (<[ "constructor" := VStr "x" ]> {[ "age" := VNum (42 # 1) ]});
                  OArray [VRef 2%nat];
                  ORecord (<[ "constructor" := VStr "x" ]> {[ "age" := VNum (42 # 1) ]})];
      st_checked := [VRef 2%nat] |},
   Returned (VRef 2%nat)).
Proof. split; [reflexivity|]. split; vm_compute; reflexivity. Qed.

(** ** Numeric-looking strings *)

Lemma digit_digit_char d : (d < 10)%nat -> digit (digit_char d) = Some (Z.of_nat d).
Proof. intros Hd. do 10 (destruct d as [|d]; [reflexivity|]). lia. Qed.

Lemma digit_char_not_minus d : (d < 10)%nat -> Ascii.eqb (digit_char d) "-" = false.
Proof. intros Hd. do 10 (destruct d as [|d]; [reflexivity|]). lia. Qed.

Lemma digit_char_not_dot d : (d < 10)%nat -> Ascii.eqb (digit_char d) "." = false.
Proof. intros Hd. do 10 (destruct d as [|d]; [reflexivity|]). lia. Qed.

Lemma digit_inv c z :
  digit c = Some z -> exists d, (d < 10)%nat /\ c = digit_char d /\ z = Z.of_nat d.
Proof.
  unfold digit. set (n := nat_of_ascii c).
  destruct (_ && _) eqn:E; [|done]. intros [= <-].
  apply andb_true_iff in E as [H1 H2]. apply Z.leb_le in H1, H2.
  exists (n - 48)%nat. split; [lia|]. split; [|lia].
  unfold digit_char. replace (48 + (n - 48))%nat with n by lia.
  unfold n. symmetry. apply ascii_nat_embedding.
Qed.

Lemma numeral_cons d ds : numeral (d :: ds) = String (digit_char d) (numeral ds).
Proof. reflexivity. Qed.

Lemma append_cons c s t : String c s +:+ t = String c (s +:+ t).
Proof. reflexivity. Qed.

Lemma append_empty_l t : "" +:+ t = t.
Proof. reflexivity. Qed.

Lemma append_empty_r s : s +:+ "" = s.
Proof. induction s as [|c s IH]; [done|]. by rewrite append_cons, IH. Qed.

Lemma length_numeral ds : String.length (numeral ds) = length ds.
Proof. induction ds as [|d ds IH]; [done|]. rewrite numeral_cons. simpl. by rewrite IH. Qed.

Lemma digits_cons c r acc :
  digits (String c r) acc = d ← digit c; digits r (10 * acc + d).
Proof. reflexivity. Qed.

Lemma split_dot_cons c r :
  split_dot (String c r) =
    if Ascii.eqb c "." then (EmptyString, Some r)
    else let '(a, b) := split_dot r in (String c a, b).
Proof. reflexivity. Qed.

Lemma digits_numeral ds acc :
  Forall (fun d => (d < 10)%nat) ds ->
  digits (numeral ds) acc = Some (fold_left (fun acc d => 10 * acc + Z.of_nat d) ds acc).
Proof.
  intros Hds. revert acc. induction Hds as [|d ds Hd _ IH]; intros acc; [done|].
  rewrite numeral_cons, digits_cons, digit_digit_char by done. apply IH.
Qed.

Lemma digits_inv s acc z :
  digits s acc = Some z ->
  exists ds, Forall (fun d => (d < 10)%nat) ds /\ s = numeral ds /\
             z = fold_left (fun acc d => 10 * acc + Z.of_nat d) ds acc.
Proof.
  revert acc. induction s as [|c s IH]; intros acc.
  - intros [= <-]. by exists [].
  - rewrite digits_cons. destruct (digit c) as [x|] eqn:Ec; [|done].
    change (digits s (10 * acc + x) = Some z -> exists ds : list nat,
      Forall (fun d : nat => (d < 10)%nat) ds /\ String c s = numeral ds /\
      z = fold_left (fun acc d => 10 * acc + Z.of_nat d) ds acc).
    intros Hs.
    destruct (digit_inv _ _ Ec) as (d & Hd & -> & ->).
    destruct (IH _ Hs) as (ds & Hds & -> & ->).
    exists (d :: ds). split; [by constructor | done].
Qed.

Lemma decimal_numeral ds :
  ds <> [] -> Forall (fun d => (d < 10)%nat) ds ->
  decimal (numeral ds) = Some (numeral_value ds).
Proof.
  intros Hne Hds. destruct ds as [|d ds]; [done|].
  unfold decimal. rewrite numeral_cons, <- numeral_cons. by apply digits_numeral.
Qed.

Lemma decimal_inv s z :
  decimal s = Some z ->
  exists ds, ds <> [] /\ Forall (fun d => (d < 10)%nat) ds /\ s = numeral ds /\
             z = numeral_value ds.
Proof.
  destruct s as [|c s]; [done|]. unfold decimal. intros Hs.
  destruct (digits_inv _ _ _ Hs) as (ds & Hds & Heq & ->).
  exists ds. split; [by intros ->|done].
Qed.

Lemma split_dot_numeral ds :
  Forall (fun d => (d < 10)%nat) ds -> split_dot (numeral ds) = (numeral ds, None).
Proof.
  induction 1 as [|d ds Hd _ IH]; [done|].
  by rewrite numeral_cons, split_dot_cons, digit_char_not_dot, IH.
Qed.

Lemma split_dot_numeral_dot ds r :
  Forall (fun d => (d < 10)%nat) ds ->
  split_dot (numeral ds +:+ "." +:+ r) = (numeral ds, Some r).
Proof.
  induction 1 as [|d ds Hd _ IH]; [done|].
  by rewrite numeral_cons, append_cons, split_dot_cons, digit_char_not_dot, IH.
Qed.

Lemma split_dot_inv s a b :
  split_dot s = (a, b) ->
  s = a +:+ match b with Some f => "." +:+ f | None => "" end.
Proof.
  revert a b. induction s as [|c s IH]; intros a b.
  - by intros [= <- <-].
  - rewrite split_dot_cons. destruct (Ascii.eqb c ".") eqn:Ec.
    + apply Ascii.eqb_eq in Ec as ->. by intros [= <- <-].
    + destruct (split_dot s) as [a' b']. intros [= <- <-].
      by rewrite append_cons, <- (IH a' b').
Qed.

Lemma parseUnsigned_integer sign ds :
  ds <> [] -> Forall (fun d => (d < 10)%nat) ds ->
  parseUnsigned sign (numeral ds) = Some (sign * numeral_value ds # 1).
Proof.
  intros Hne Hds. unfold parseUnsigned.
  by rewrite split_dot_numeral, decimal_numeral.
Qed.

Lemma parseUnsigned_decimal sign ds fs :
  ds <> [] -> fs <> [] ->
  Forall (fun d => (d < 10)%nat) ds -> Forall (fun d => (d < 10)%nat) fs ->
  parseUnsigned sign (numeral ds +:+ "." +:+ numeral fs) =
    Some (Qred (sign * (numeral_value ds * 10 ^ Z.of_nat (length fs) + numeral_value fs)
                # Z.to_pos (10 ^ Z.of_nat (length fs)))).
Proof.
  intros Hne Hnf Hds Hfs. unfold parseUnsigned.
  rewrite split_dot_numeral_dot, decimal_numeral by done. simpl.
  rewrite decimal_numeral by done. simpl. by rewrite length_numeral.
Qed.

Lemma parseUnsigned_inv sign r q :
  parseUnsigned sign r = Some q ->
  (exists ds, ds <> [] /\ Forall (fun d => (d < 10)%nat) ds /\ r = numeral ds /\
              q = (sign * numeral_value ds # 1)) \/
  (exists ds fs, ds <> [] /\ fs <> [] /\
              Forall (fun d => (d < 10)%nat) ds /\ Forall (fun d => (d < 10)%nat) fs /\
              r = numeral ds +:+ "." +:+ numeral fs /\
              q = Qred (sign * (numeral_value ds * 10 ^ Z.of_nat (length fs)
                                + numeral_value fs)
                        # Z.to_pos (10 ^ Z.of_nat (length fs)))).
Proof.
  unfold parseUnsigned. destruct (split_dot r) as [ip fp] eqn:Es.
  apply split_dot_inv in Es.
  destruct (decimal ip) as [i|] eqn:Ei; simpl; [|done].
  destruct (decimal_inv _ _ Ei) as (ds & Hne & Hds & -> & ->).
  destruct fp as [f|].
  - destruct (decimal f) as [d|] eqn:Ef; simpl; [|done].
    destruct (decimal_inv _ _ Ef) as (fs & Hnf & Hfs & -> & ->).
    intros [= <-]. right. exists ds, fs. by rewrite length_numeral.
  - intros [= <-]. left. exists ds. by rewrite append_empty_r in Es.
Qed.

(** The reading of numbers agrees with what a numeric-looking string is said
    to spell: it reads exactly the numeric-looking strings, each as the
    number it spells. *)
Lemma parseNumber_spec s q : parseNumber s = Some q <-> numeric_looking s q.
Proof.
  split.
  - destruct s as [|c r]; [done|]. simpl.
    destruct (Ascii.eqb c "-") eqn:Ec.
    + apply Ascii.eqb_eq in Ec as ->.
      intros [(ds & Hne & Hds & -> & ->)|(ds & fs & Hne & Hnf & Hds & Hfs & -> & ->)]%parseUnsigned_inv.
      * replace (-1 * numeral_value ds) with (signed true (numeral_value ds))
          by (simpl; lia).
        by apply (NL_integer true ds).
      * replace (-1 * (numeral_value ds * 10 ^ Z.of_nat (length fs) + numeral_value fs))
          with (signed true (numeral_value ds * 10 ^ Z.of_nat (length fs) + numeral_value fs))
          by (simpl; lia).
        by apply (NL_decimal true ds fs).
    + intros [(ds & Hne & Hds & Hr & ->)|(ds & fs & Hne & Hnf & Hds & Hfs & Hr & ->)]%parseUnsigned_inv.
      * rewrite Hr, Z.mul_1_l. by apply (NL_integer false ds).
      * rewrite Hr, Z.mul_1_l. by apply (NL_decimal false ds fs).
  - intros [neg ds Hne Hds | neg ds fs Hne Hnf Hds Hfs].
    + destruct neg; simpl minus_sign.
      * rewrite append_cons, append_empty_l. simpl.
        rewrite parseUnsigned_integer by done. do 2 f_equal; try lia.
      * rewrite append_empty_l. destruct ds as [|d ds]; [done|].
        rewrite numeral_cons. unfold parseNumber.
        rewrite digit_char_not_minus by (by inversion Hds).
        rewrite <- numeral_cons, parseUnsigned_integer by done.
        do 2 f_equal; simpl; try lia.
    + destruct neg; simpl minus_sign.
      * rewrite append_cons, append_empty_l. simpl.
        rewrite parseUnsigned_decimal by done. do 3 f_equal; try lia.
      * rewrite append_empty_l. destruct ds as [|d ds]; [done|].
        rewrite numeral_cons, append_cons. unfold parseNumber.
        rewrite digit_char_not_minus by (by inversion Hds).
        rewrite <- append_cons, <- numeral_cons, parseUnsigned_decimal by done.
        do 3 f_equal; simpl; try lia.
Qed.

(** The strings of the examples of the specification, and some strings that
    are not numeric-looking. *)
Example parseNumber_examples :
  parseNumber "42" = Some (42 # 1) /\ parseNumber "3.5" = Some (7 # 2) /\
  parseNumber "-0.25" = Some (-1 # 4) /\ parseNumber "007" = Some (7 # 1) /\
  parseNumber "" = None /\ parseNumber "abc" = None /\ parseNumber "4a" = None /\
  parseNumber "1.2.3" = None /\ parseNumber "." = None /\ parseNumber "5." = None /\
  parseNumber "-" = None /\ parseNumber "--5" = None /\ parseNumber " 42" = None.
Proof. repeat split; vm_compute; reflexivity. Qed.

(** ** Coercion *)

Lemma props_loop_in_place known coerceTypes stripUnknownProps l ks (h : heap) m :
  truthy stripUnknownProps = false -> truthy coerceTypes = true ->
  h !! l = Some (ORecord m) ->
  props_loop coerceTypes stripUnknownProps known l l ks h =
    <[l := ORecord (coerce_in_place known m ks)]> h.
Proof.
  intros Hs Hc. revert h m.
  induction ks as [|k ks IH]; intros h m Hl; simpl.
  - by rewrite list_insert_id.
  - destruct (known_type_of known k) as [t|] eqn:Ek; [|by apply IH].
    rewrite Hs, Hc. pose proof (lookup_lt_Some _ _ _ Hl) as Hlt.
    rewrite (get_prop_record h l m k Hl), (set_prop_record h l m k _ Hl).
    rewrite (IH _ (rec_assign k (coerce_known t (default VUndefined (m !! k))) m)).
    + by rewrite list_insert_insert_eq.
    + by rewrite list_lookup_insert_eq.
Qed.

Lemma coerce_in_place_lookup known (m : gmap string value) ks k :
  NoDup ks -> Forall (fun k => is_Some (m !! k)) ks ->
  coerce_in_place known m ks !! k =
    if decide (k ∈ ks)
    then match known_type_of known k with
         | Some t => Some (coerce_known t (default VUndefined (m !! k)))
         | None => m !! k
         end
    else m !! k.
Proof.
  intros Hnd. revert m. induction Hnd as [|k' ks Hk' Hnd IH]; intros m Hown.
  - case_decide as Hin; [by apply elem_of_nil in Hin | done].
  - apply Forall_cons in Hown as [Hown' Hown].
    change (coerce_in_place known m (k' :: ks)) with
      (coerce_in_place known
         match known_type_of known k' with
         | Some t => rec_assign k' (coerce_known t (default VUndefined (m !! k'))) m
         | None => m
         end ks).
    rewrite IH.
    2:{ destruct (known_type_of known k'); [|done].
        rewrite rec_assign_own by done.
        eapply Forall_impl; [exact Hown|]. intros x Hx. simpl.
        destruct (decide (k' = x)) as [->|Hne];
          [rewrite lookup_insert_eq; by eexists | by rewrite lookup_insert_ne]. }
    destruct (decide (k = k')) as [->|Hne].
    + rewrite decide_False by done. rewrite decide_True by left.
      destruct (known_type_of known k');
        [by rewrite rec_assign_own, lookup_insert_eq | done].
    + destruct (decide (k ∈ ks)) as [Hin|Hnin].
      * rewrite decide_True by (by right).
        destruct (known_type_of known k'); [by rewrite rec_assign_lookup_ne | done].
      * rewrite decide_False by (intros [?|?]%elem_of_cons; done).
        destruct (known_type_of known k'); [by rewrite rec_assign_lookup_ne | done].
Qed.

(** Coercion in place gives each property that the lookup finds its coerced
    value and leaves the others. *)
Lemma coerced_record_lookup known m k :
  coerced_record known m !! k =
    match known_type_of known k with
    | Some t => coerce_known t <$> m !! k
    | None => m !! k
    end.
Proof.
  unfold coerced_record.
  rewrite coerce_in_place_lookup.
  - destruct (m !! k) as [v|] eqn:Em; simpl.
    + rewrite decide_True; [done|].
      apply list_elem_of_fmap. exists (k, v). split; [done|].
      by apply elem_of_map_to_list.
    + rewrite decide_False; [by destruct (known_type_of known k)|].
      intros [[k' v] [-> Hin]]%list_elem_of_fmap.
      apply elem_of_map_to_list in Hin. simpl in Em. congruence.
  - apply NoDup_fst_map_to_list.
  - apply Forall_forall. intros x [[k' v] [-> Hin]]%list_elem_of_fmap.
    apply elem_of_map_to_list in Hin. by exists v.
Qed.

(** A property whose name is not in the map keeps its value. *)
Lemma coerced_record_unknown known m k :
  known !! k = None -> coerced_record known m !! k = m !! k.
Proof.
  intros Hk. rewrite coerced_record_lookup.
  destruct (known_type_of_unknown known k Hk) as [-> | ->]; [|done].
  by destruct (m !! k).
Qed.

Lemma transform_coerce_record schema coerceTypes stripUnknownProps (h : heap) ld m known :
  truthy stripUnknownProps = false -> truthy coerceTypes = true ->
  h !! ld = Some (ORecord m) ->
  knownPropTypes schema = Returned known ->
  transform schema coerceTypes stripUnknownProps h (VRef ld) =
    Returned (<[ld := ORecord (coerced_record known m)]> h ++ [OArray [VRef ld]],
              VRef ld).
Proof.
  intros Hs Hc Hd Hk. unfold transform. rewrite Hc. simpl.
  unfold isArray, array_loc. rewrite Hd. simpl. rewrite Hk. simpl.
  rewrite array_length_alloc. simpl.
  unfold elem_step. rewrite get_elem_alloc. simpl.
  rewrite (lookup_alloc_old h _ ld _ Hd), Hs.
  pose proof (lookup_lt_Some _ _ _ Hd) as Hlt.
  unfold keys_of. rewrite (lookup_alloc_old h _ ld _ Hd).
  rewrite (props_loop_in_place known coerceTypes stripUnknownProps ld _ _ m Hs Hc
             (lookup_alloc_old h _ ld _ Hd)).
  fold (coerced_record known m).
  rewrite insert_app_l by done.
  replace (length h) with (length (<[ld := ORecord (coerced_record known m)]> h))
    by apply length_insert.
  rewrite set_elem_alloc. simpl. by rewrite get_elem_alloc.
Qed.

Lemma coerced_on coerceTypes ty v :
  truthy coerceTypes = true -> coerced coerceTypes ty v = coerceType ty v.
Proof. unfold coerced. by intros ->. Qed.

Lemma coerceType_number_string ty s :
  ty = "integer" \/ ty = "number" ->
  coerceType ty (VStr s) =
    match parseNumber s with Some q => VNum q | None => VStr s end.
Proof. by intros [-> | ->]. Qed.

(** C7: with target [integer] or [number], [coerceType] turns a
    numeric-looking string (an optional minus sign, decimal digits and,
    optionally, a point and decimal digits) into the number it spells, and
    gives every other value back as it is: a string that is not
    numeric-looking, and a value that is not a string.  It is a total
    function and raises nothing.  With coercion on, [validate] applies it to
    each property of a record input whose known type is that target,
    whatever the value of the property, and returns the record when the
    checker accepts it. *)
Theorem coerceType_numeric ty v :
  ty = "integer" \/ ty = "number" ->
  (forall s q, v = VStr s -> numeric_looking s q -> coerceType ty v = VNum q) /\
  (forall s, v = VStr s -> (forall q, ~ numeric_looking s q) -> coerceType ty v = v) /\
  ((forall s, v <> VStr s) -> coerceType ty v = v) /\
  (forall type schema coerceTypes stripUnknownProps required check st ld m known k,
     truthy coerceTypes = true ->
     st_heap st !! ld = Some (ORecord m) ->
     knownPropTypes schema = Returned known ->
     known !! k = Some ty -> k <> "__proto__" -> m !! k = Some v ->
     exists h lp out,
       transform schema coerceTypes stripUnknownProps (st_heap st) (VRef ld)
         = Returned (h, VRef lp) /\
       h !! lp = Some (ORecord out) /\
       out !! k = Some (coerceType ty v) /\
       (forall h', check h (VRef lp) = (h', Accept) ->
          validate type schema coerceTypes stripUnknownProps required check st (VRef ld) =
            ({| st_heap := h'; st_checked := st_checked st ++ [VRef lp] |},
             Returned (VRef lp)))).
Proof.
  intros Hty. repeat split.
  - intros s q -> Hq%parseNumber_spec.
    by rewrite coerceType_number_string, Hq.
  - intros s -> Hq. rewrite coerceType_number_string by done.
    destruct (parseNumber s) as [q|] eqn:Ep; [|done].
    by apply parseNumber_spec, Hq in Ep.
  - intros Hv. unfold coerceType. destruct Hty as [-> | ->]; simpl;
      destruct v; try done; by destruct (Hv s).
  - intros type schema coerceTypes stripUnknownProps required check st ld m known k
      Hc Hd Hk Hknown Hproto Hm.
    pose proof (lookup_lt_Some _ _ _ Hd) as Hlt.
    destruct (truthy stripUnknownProps) eqn:Hs.
    + eexists _, (S (length (st_heap st))), (stripped known coerceTypes m).
      split; [by apply transform_strip_record|]. split; [|split].
      * rewrite lookup_app_r by lia.
        by replace (S (length (st_heap st)) - length (st_heap st))%nat with 1%nat by lia.
      * destruct (stripped_cases known coerceTypes m k Hproto) as (Hkeep & _).
        rewrite (Hkeep ty Hknown), Hm. simpl. by rewrite coerced_on.
      * intros h' Hok. unfold validate, validate_tail.
        rewrite (transform_strip_record _ _ _ _ _ _ _ Hs Hd Hk). simpl. by rewrite Hok.
    + eexists _, ld, (coerced_record known m).
      split; [by apply transform_coerce_record|]. split; [|split].
      * apply lookup_alloc_old. by rewrite list_lookup_insert_eq.
      * by rewrite coerced_record_lookup, (known_type_of_known _ _ _ Hknown Hproto), Hm.
      * intros h' Hok. unfold validate, validate_tail.
        rewrite (transform_coerce_record _ _ _ _ _ _ _ Hs Hc Hd Hk). simpl.
        by rewrite Hok.
Qed.

(** The example of the specification: [{age: "42"}] is checked and returned
    as [{age: 42}]. *)
Lemma coerceType_numeric_witness :
  coerceType "integer" (VStr "42") = VNum (42 # 1) /\
  exists h lp out,
    transform age_schema (Some true) None [ORecord {[ "age" := VStr "42" ]}] (VRef 0%nat)
      = Returned (h, VRef lp) /\
    h !! lp = Some (ORecord out) /\
    out !! "age" = Some (VNum (42 # 1)) /\
    validate body age_schema (Some true) None (Some true) accept_all
      {| st_heap := [ORecord {[ "age" := VStr "42" ]}]; st_checked := [] |} (VRef 0%nat) =
      ({| st_heap := h; st_checked := [VRef lp] |}, Returned (VRef lp)).
Proof.
  destruct (coerceType_numeric "integer" (VStr "42") (or_introl eq_refl))
    as (Hnum & _ & _ & Hrec).
  split.
  - apply (Hnum "42" (42 # 1) eq_refl).
    apply (NL_integer false [4%nat; 2%nat]); [discriminate|].
    repeat constructor; lia.
  - destruct (Hrec body age_schema (Some true) None (Some true) accept_all
                {| st_heap := [ORecord {[ "age" := VStr "42" ]}]; st_checked := [] |}
                0%nat {[ "age" := VStr "42" ]} {[ "age" := "integer" ]} "age"
                eq_refl eq_refl knownPropTypes_age
                ltac:(vm_compute; reflexivity) ltac:(discriminate)
                ltac:(vm_compute; reflexivity))
      as (h & lp & out & Ht & Hl & Hout & Hv).
    exists h, lp, out.
    repeat split; [exact Ht | exact Hl | exact Hout | exact (Hv h eq_refl)].
Defined.

Example coerce_example :
  validate body age_schema (Some true) None (Some true) accept_all
    {| st_heap := [ORecord {[ "age" := VStr "42" ]}]; st_checked := [] |} (VRef 0%nat) =
  ({| st_heap := [ORecord {[ "age" := VNum (42 # 1) ]}; OArray [VRef 0%nat]];
      st_checked := [VRef 0%nat] |},
   Returned (VRef 0%nat)).
Proof. vm_compute. reflexivity. Qed.

(** The end-to-end example of the specification: with coercion on, the
    input [{q: "3.5"}] is checked and returned as [{q: 3.5}]. *)
Example coerce_number_example :
  validate body
    (JObj [("type", JStr "object");
           ("properties", JObj [("q", JObj [("type", JStr "number")])]);
           ("required", JArr [JStr "q"])])
    (Some true) None (Some true) accept_all
    {| st_heap := [ORecord {[ "q" := VStr "3.5" ]}]; st_checked := [] |} (VRef 0%nat) =
  ({| st_heap := [ORecord {[ "q" := VNum (7 # 2) ]}; OArray [VRef 0%nat]];
      st_checked := [VRef 0%nat] |},
   Returned (VRef 0%nat)).
Proof. vm_compute. reflexivity. Qed.

(** ** What [validate] writes *)

(** C3 as the specification words it fails: with coercion on and stripping
    off, the record given to [validate] is itself overwritten, [{age: "42"}]
    becoming [{age: 42}], under a checker that writes nothing. *)
Lemma validate_overwrites_input_record :
  ~ (forall type schema coerceTypes stripUnknownProps required check st v st' res,
       (forall h x, (check h x).1 = h) ->
       validate type schema coerceTypes stripUnknownProps required check st v = (st', res) ->
       forall l, v = VRef l -> st_heap st' !! l = st_heap st !! l).
Proof.
  intros H.
  specialize (H body age_schema (Some true) None (Some true) accept_all
                {| st_heap := [ORecord {[ "age" := VStr "42" ]}]; st_checked := [] |}
                (VRef 0%nat) _ _ (fun _ _ => eq_refl) coerce_example 0%nat eq_refl).
  vm_compute in H. congruence.
Qed.

(** An array input has its elements assigned in place. *)
Example strip_array_example :
  validate body (JObj [("type", JStr "array"); ("items", age_schema)])
    None (Some true) (Some true) accept_all
    {| st_heap := [ORecord (<[ "extra" := VStr "x" ]> {[ "age" := VNum (42 # 1) ]});
                   OArray [VRef 0%nat]];
       st_checked := [] |} (VRef 1%nat) =
  ({| st_heap := [ORecord (<[ "extra" := VStr "x" ]> {[ "age" := VNum (42 # 1) ]});
                  OArray [VRef 2%nat];
                  ORecord {[ "age" := VNum (42 # 1) ]}];
      st_checked := [VRef 1%nat] |},
   Returned (VRef 1%nat)).
Proof. vm_compute. reflexivity. Qed.

Lemma isObj_inv (h : heap) v :
  isObj h v = true -> exists l m, v = VRef l /\ h !! l = Some (ORecord m).
Proof.
  destruct v as [| | | | |l]; try done. simpl.
  destruct (h !! l) as [[m|es]|] eqn:E; try done. by exists l, m.
Qed.

Lemma transform_wrapped_throws schema coerceTypes stripUnknownProps (h : heap) v e :
  truthy coerceTypes || truthy stripUnknownProps = true ->
  isArray h v = false ->
  knownPropTypes schema = Thrown e ->
  transform schema coerceTypes stripUnknownProps h v = Thrown e.
Proof.
  intros Hf Ha Hk. unfold transform.
  rewrite Hf, (isArray_false _ _ Ha). simpl. by rewrite Hk.
Qed.

Lemma validate_unfold type schema coerceTypes stripUnknownProps required check st v :
  validate type schema coerceTypes stripUnknownProps required check st v =
    match transform schema coerceTypes stripUnknownProps (st_heap st) v with
    | Thrown e => (st, Thrown e)
    | Returned (h, p) => validate_tail type required check (st_checked st) h p
    end.
Proof. reflexivity. Qed.

Lemma validate_tail_pure type required check checked (h : heap) p st' res :
  (forall h x, (check h x).1 = h) ->
  validate_tail type required check checked h p = (st', res) ->
  st_heap st' = h /\ (forall lp, res = Returned (VRef lp) -> p = VRef lp).
Proof.
  intros Hpure. unfold validate_tail.
  destruct (_ && _).
  - intros [= <- <-]. split; [done|]. intros lp. congruence.
  - pose proof (Hpure h p) as Hp.
    destruct (check h p) as [h' [|errs]]; simpl in Hp; subst h'; intros [= <- <-].
    + split; [done|]. intros lp. congruence.
    + split; [done|]. intros lp. congruence.
Qed.

(** C3, as the code has it: under a checker that writes nothing, [validate]
    leaves every object of the incoming store as it was when coercion and
    stripping are both off, and when stripping is on and the input is not
    an array; in the second case a record input is answered with a fresh
    record, distinct from the input. *)
Theorem validate_leaves_store type schema coerceTypes stripUnknownProps required
    check st v st' res :
  (forall h x, (check h x).1 = h) ->
  (truthy coerceTypes = false /\ truthy stripUnknownProps = false) \/
  (truthy stripUnknownProps = true /\ isArray (st_heap st) v = false) ->
  validate type schema coerceTypes stripUnknownProps required check st v = (st', res) ->
  (forall l o, st_heap st !! l = Some o -> st_heap st' !! l = Some o) /\
  (truthy stripUnknownProps = true -> isObj (st_heap st) v = true ->
   forall lp, res = Returned (VRef lp) ->
     (length (st_heap st) <= lp)%nat /\ VRef lp <> v).
Proof.
  intros Hpure Hcase. rewrite validate_unfold.
  destruct Hcase as [[Hc Hs]|[Hs Ha]].
  - rewrite (transform_off schema coerceTypes stripUnknownProps _ _ Hc Hs).
    intros Hv. destruct (validate_tail_pure _ _ _ _ _ _ _ _ Hpure Hv) as [-> _].
    split; [done | congruence].
  - assert (truthy coerceTypes || truthy stripUnknownProps = true) as Hf
      by (by rewrite Hs, orb_true_r).
    destruct (knownPropTypes schema) as [known|e] eqn:Hk.
    2:{ rewrite (transform_wrapped_throws _ _ _ _ _ _ Hf Ha Hk).
        intros [= <- <-]. split; [done | congruence]. }
    destruct (isObj (st_heap st) v) eqn:Ho.
    + destruct (isObj_inv _ _ Ho) as (ld & m & -> & Hd).
      pose proof (lookup_lt_Some _ _ _ Hd) as Hlt.
      rewrite (transform_strip_record _ _ _ _ _ _ _ Hs Hd Hk).
      intros Hv. destruct (validate_tail_pure _ _ _ _ _ _ _ _ Hpure Hv) as [-> Hres].
      split; [intros l o; apply lookup_app_l_Some|].
      intros _ _ lp Hlp. apply Hres in Hlp. injection Hlp as <-.
      split; [lia|]. intros [= <-]. lia.
    + rewrite (transform_scalar _ _ _ _ _ _ Hf Ho Ha Hk).
      intros Hv. destruct (validate_tail_pure _ _ _ _ _ _ _ _ Hpure Hv) as [-> _].
      split; [intros l o; apply lookup_app_l_Some | congruence].
Qed.

Lemma validate_leaves_store_witness :
  let input := ORecord (<[ "extra" := VStr "x" ]> {[ "age" := VStr "42" ]}) in
  (forall l o, [input] !! l = Some o ->
     [input; OArray [VRef 2%nat]; ORecord {[ "age" := VNum (42 # 1) ]}] !! l = Some o) /\
  (truthy (Some true) = true -> isObj [input] (VRef 0%nat) = true ->
   forall lp, Returned (VRef 2%nat) = Returned (VRef lp) ->
     (length [input] <= lp)%nat /\ VRef lp <> VRef 0%nat).
Proof.
  intros input.
  apply (validate_leaves_store body age_schema (Some true) (Some true) (Some true)
           accept_all {| st_heap := [input]; st_checked := [] |} (VRef 0%nat)
           {| st_heap := [input; OArray [VRef 2%nat]; ORecord {[ "age" := VNum (42 # 1) ]}];
              st_checked := [VRef 2%nat] |}
           (Returned (VRef 2%nat))).
  - intros h x. reflexivity.
  - right. split; reflexivity.
  - vm_compute. reflexivity.
Defined.

(** ** An array input without an item schema *)

(** Without [items] the loop over an array input runs with the
    known-property map of the empty schema, which has no entry. *)
Lemma transform_strip_array_without_items schema coerceTypes stripUnknownProps
    (h : heap) la es o :
  truthy stripUnknownProps = true ->
  h !! la = Some (OArray es) ->
  prop_get schema "items" = Returned o -> nullish o ->
  transform schema coerceTypes stripUnknownProps h (VRef la) =
    Returned (fold_left (elem_step coerceTypes stripUnknownProps ∅ (JObj []) la)
                        (seq 0 (length es)) h,
              VRef la).
Proof.
  intros Hs Hla Hitems Ho. unfold transform. rewrite Hs, orb_true_r.
  unfold isArray, array_loc. rewrite Hla, Hitems. simpl.
  assert (coalesce o (JObj []) = JObj []) as -> by (by destruct Ho as [-> | ->]).
  simpl. unfold array_length. by rewrite Hla.
Qed.

(** A record element whose property names are ordinary ones gives way to an
    empty record. *)
Example strip_array_without_items_example :
  validate body (JObj [("type", JStr "array")]) None (Some true) (Some true) accept_all
    {| st_heap := [ORecord (<[ "extra" := VStr "x" ]> {[ "age" := VNum (42 # 1) ]});
                   OArray [VRef 0%nat; VStr "7"]];
       st_checked := [] |} (VRef 1%nat) =
  ({| st_heap := [ORecord (<[ "extra" := VStr "x" ]> {[ "age" := VNum (42 # 1) ]});
                  OArray [VRef 2%nat; VStr "7"];
                  ORecord ∅];
      st_checked := [VRef 1%nat] |},
   Returned (VRef 1%nat)).
Proof. vm_compute. reflexivity. Qed.

(** C10, at an array whose record element has a property named like a
    member of [Object.prototype]: the schema [{type: "array"}] has no
    [items], the known-property map is computed from the empty schema and
    has no entry, and with stripping on the element
    [{age: 42, toString: "x"}] of the input array gives way to the new
    record [{toString: "x"}], which is not empty: line 98 reads
    [knownPropTypes["toString"]], the function the map inherits, and the
    property is copied. *)
Theorem validate_strip_array_keeps_inherited_name :
  prop_get (JObj [("type", JStr "array")]) "items" = Returned None /\
  knownPropTypes (coalesce None (JObj [])) = Returned ∅ /\
  validate body (JObj [("type", JStr "array")]) None (Some true) (Some true) accept_all
    {| st_heap := [ORecord (<[ "toString" := VStr "x" ]> {[ "age" := VNum (42 # 1) ]});
                   OArray [VRef 0%nat]];
       st_checked := [] |} (VRef 1%nat) =
  ({| st_heap := [ORecord (<[ "toString" := VStr "x" ]> {[ "age" := VNum (42 # 1) ]});
                  OArray [VRef 2%nat];
                  ORecord {[ "toString" := VStr "x" ]}];
      st_checked := [VRef 1%nat] |},
   Returned (VRef 1%nat)).
Proof. split; [reflexivity|]. split; [reflexivity|]. vm_compute. reflexivity. Qed.


(** * Further properties *)

(** ** The error reporter, beyond the claims *)

Lemma prefix_spec p s : String.prefix p s = true <-> exists b, s = p +:+ b.
Proof.
  revert s. induction p as [|a p IH]; intros [|c s]; simpl.
  - split; [intros _; by exists "" | done].
  - split; [intros _; by exists (String c s) | done].
  - split; [done | by intros [b Hb]].
  - destruct (Ascii.ascii_dec a c) as [->|Hne].
    + rewrite IH. split; intros [b Hb]; exists b; [by rewrite Hb | by injection Hb].
    + split; [done|]. intros [b Hb]. injection Hb as Hc _. congruence.
Qed.

Lemma includes_nil sub : includes "" sub = String.prefix sub "".
Proof. simpl. apply orb_false_r. Qed.

Lemma includes_cons c s sub :
  includes (String c s) sub = String.prefix sub (String c s) || includes s sub.
Proof. reflexivity. Qed.

(** [includes] is the substring test. *)
Lemma includes_spec s sub :
  includes s sub = true <-> exists a b, s = a +:+ sub +:+ b.
Proof.
  split.
  - induction s as [|c s IH].
    + rewrite includes_nil. intros [b Hb]%prefix_spec. by exists "", b.
    + rewrite includes_cons. intros [[b Hb]%prefix_spec | Hs]%orb_true_iff.
      * by exists "", b.
      * destruct (IH Hs) as (a & b & ->). by exists (String c a), b.
  - intros (a & b & ->). induction a as [|c a IH].
    + assert (String.prefix sub (sub +:+ b) = true) as Hp
        by (apply prefix_spec; by exists b).
      change ("" +:+ sub +:+ b) with (sub +:+ b).
      remember (sub +:+ b) as t eqn:Et. destruct t as [|c t].
      * by rewrite includes_nil.
      * by rewrite includes_cons, Hp.
    + change (String c a +:+ sub +:+ b) with (String c (a +:+ sub +:+ b)).
      rewrite includes_cons, IH. apply orb_true_r.
Qed.

Lemma includes_empty s : includes s "" = true.
Proof. apply includes_spec. by exists "", s. Qed.

Lemma existsb_includes_spec path (paths : list string) :
  existsb (fun p => includes path p) paths = true <->
  exists p a b, p ∈ paths /\ path = a +:+ p +:+ b.
Proof.
  rewrite existsb_exists. split.
  - intros (p & Hin & (a & b & ->)%includes_spec).
    exists p, a, b. split; [by apply list_elem_of_In | done].
  - intros (p & a & b & Hin & ->). exists p. split; [by apply list_elem_of_In|].
    apply includes_spec. by exists a, b.
Qed.

Lemma elem_of_union_paths_of p (errs : list ErrorObject) :
  p ∈ union_paths_of errs <->
  exists u, u ∈ errs /\ is_union_keyword (keyword u) = true /\ instancePath u = p.
Proof.
  unfold union_paths_of. rewrite list_elem_of_In, in_map_iff. split.
  - intros (u & <- & [Hin Hu]%filter_In). exists u.
    split; [by apply list_elem_of_In | done].
  - intros (u & Hin & Hu & <-). exists u. split; [done|].
    apply filter_In. split; [by apply list_elem_of_In | done].
Qed.

(** X1: what becomes of the next raw error.  After the raw errors [pre],
    the error [e] is left out when its instance path has, as a substring,
    the instance path of a oneOf or anyOf error reported for [pre]; otherwise
    it is added at the end of the report. *)
Theorem report_drops_exactly_substring_paths type pre e :
  let reported := errors (Exceptions.AjvValidationException type (Some pre)) in
  let suppressed :=
    exists u a b, u ∈ reported /\ is_union_keyword (keyword u) = true /\
                  instancePath e = a +:+ instancePath u +:+ b in
  (suppressed ->
   errors (Exceptions.AjvValidationException type (Some (pre ++ [e]))) = reported) /\
  (~ suppressed ->
   errors (Exceptions.AjvValidationException type (Some (pre ++ [e]))) = reported ++ [e]).
Proof.
  simpl. rewrite report_next.
  destruct (existsb _ _) eqn:E.
  - split; [done|]. intros Hn. destruct Hn.
    apply existsb_includes_spec in E as (p & a & b & Hp & Hpath).
    apply elem_of_union_paths_of in Hp as (u & Hu & Hk & <-). by exists u, a, b.
  - split; [|done]. intros (u & a & b & Hu & Hk & Hpath).
    assert (existsb (fun path => includes (instancePath e) path)
              (union_paths_of (topLevelErrors (fold_left report_step pre reporter0)))
            = true) as Ht; [|congruence].
    apply existsb_includes_spec. exists (instancePath u), a, b. split; [|done].
    apply elem_of_union_paths_of. by exists u.
Qed.

(** Reporting is done error by error: what is reported for a list of raw
    errors starts with what is reported for any of its prefixes. *)
Lemma fold_report_app l1 l2 r :
  exists k, topLevelErrors (fold_left report_step (l1 ++ l2) r) =
            topLevelErrors (fold_left report_step l1 r) ++ k /\ sublist k l2.
Proof. rewrite fold_left_app. apply kept_sublist. Qed.

(** X2: the first raw error is always reported, so that a failure with raw
    errors never has an empty error list, and raw errors that come later
    never change what was reported for the errors before them. *)
Theorem report_is_prefix_stable type l1 l2 :
  (exists k,
     errors (Exceptions.AjvValidationException type (Some (l1 ++ l2))) =
       errors (Exceptions.AjvValidationException type (Some l1)) ++ k /\
     sublist k l2) /\
  (forall e, exists k,
     errors (Exceptions.AjvValidationException type (Some (e :: l2))) = e :: k /\
     sublist k l2).
Proof.
  split; [apply fold_report_app|].
  intros e. apply (fold_report_app [e] l2 reporter0).
Qed.

Lemma report_fixed l :
  fold_left report_step (topLevelErrors (fold_left report_step l reporter0)) reporter0
  = fold_left report_step l reporter0.
Proof.
  induction l as [|e l IH] using rev_ind; [done|].
  rewrite fold_report_snoc.
  set (r := fold_left report_step l reporter0) in *.
  destruct (existsb (fun path => includes (instancePath e) path) (unionPaths r)) eqn:E.
  - apply report_step_dropped in E. by rewrite E.
  - destruct (report_step_kept r e E) as [Ht _]. by rewrite Ht, fold_report_snoc, IH.
Qed.

(** X3: reporting is idempotent: the reported errors, given to the reporter
    again, are all reported, in the same order. *)
Theorem report_idempotent type errs :
  errors (Exceptions.AjvValidationException type
            (Some (errors (Exceptions.AjvValidationException type errs))))
  = errors (Exceptions.AjvValidationException type errs).
Proof.
  destruct errs as [l|]; [|done]. simpl. by rewrite report_fixed.
Qed.

Lemma fold_report_no_union l r :
  unionPaths r = [] ->
  Forall (fun e => is_union_keyword (keyword e) = false) l ->
  fold_left report_step l r =
    {| topLevelErrors := topLevelErrors r ++ l; unionPaths := [] |}.
Proof.
  intros Hr Hl. revert r Hr. induction Hl as [|e l He _ IH]; intros r Hr; simpl.
  - rewrite app_nil_r. destruct r. simpl in Hr. by subst.
  - rewrite IH.
    + unfold report_step. rewrite Hr. simpl. by rewrite <- app_assoc.
    + unfold report_step. rewrite Hr. simpl. by rewrite He.
Qed.

(** X4: raw errors none of which is a oneOf or anyOf error are all reported,
    in their order. *)
Theorem report_without_union_is_identity type l :
  Forall (fun e => is_union_keyword (keyword e) = false) l ->
  errors (Exceptions.AjvValidationException type (Some l)) = l.
Proof.
  intros Hl.
  change (topLevelErrors (fold_left report_step l reporter0) = l).
  by rewrite (fold_report_no_union l reporter0 eq_refl Hl).
Qed.

Lemma report_without_union_is_identity_witness :
  errors (Exceptions.AjvValidationException body
            (Some [mkError "/a" "type"; mkError "/a/b" "required"; mkError "/a" "type"]))
  = [mkError "/a" "type"; mkError "/a/b" "required"; mkError "/a" "type"].
Proof.
  apply (report_without_union_is_identity body
           [mkError "/a" "type"; mkError "/a/b" "required"; mkError "/a" "type"]).
  repeat constructor.
Defined.

Lemma includes_refl s : includes s s = true.
Proof. apply includes_spec. exists "", "". by rewrite append_empty_r. Qed.

Lemma existsb_includes_false path (paths : list string) p :
  existsb (fun q => includes path q) paths = false -> p ∈ paths ->
  includes path p = false.
Proof.
  intros Hf Hp. destruct (includes path p) eqn:E; [|done].
  assert (existsb (fun q => includes path q) paths = true) as Ht; [|congruence].
  apply existsb_exists. exists p. split; [by apply list_elem_of_In | done].
Qed.

Lemma report_separated l i j ei ej :
  let k := topLevelErrors (fold_left report_step l reporter0) in
  (i < j)%nat -> k !! i = Some ei -> k !! j = Some ej ->
  is_union_keyword (keyword ei) = true ->
  includes (instancePath ej) (instancePath ei) = false.
Proof.
  simpl. revert i j ei ej. induction l as [|e l IH] using rev_ind; intros i j ei ej Hij.
  - by intros Hi.
  - rewrite fold_report_snoc.
    pose proof (unionPaths_kept l) as Hup. simpl in Hup.
    set (r := fold_left report_step l reporter0) in *.
    destruct (existsb (fun path => includes (instancePath e) path) (unionPaths r)) eqn:E.
    + apply report_step_dropped in E. rewrite E. by apply IH.
    + destruct (report_step_kept r e E) as [-> _].
      intros Hi Hj Hu.
      assert (i < length (topLevelErrors r))%nat as Hilt.
      { apply lookup_lt_Some in Hj. rewrite length_app in Hj. simpl in Hj. lia. }
      rewrite lookup_app_l in Hi by done.
      destruct (decide (j < length (topLevelErrors r))%nat) as [Hjlt|Hjge].
      * rewrite lookup_app_l in Hj by done. by apply (IH i j).
      * rewrite lookup_app_r in Hj by lia.
        destruct (j - length (topLevelErrors r))%nat eqn:Ej; [|by destruct n].
        injection Hj as <-.
        apply (existsb_includes_false _ _ _ E). rewrite Hup.
        apply elem_of_union_paths_of. exists ei. split; [|done].
        by apply list_elem_of_lookup_2 in Hi.
Qed.

(** X5: no reported error has an instance path that contains the instance
    path of a oneOf or anyOf error reported before it; in particular a path
    is reported for at most one union error. *)
Theorem report_never_under_earlier_union type errs i j ei ej :
  (i < j)%nat ->
  errors (Exceptions.AjvValidationException type (Some errs)) !! i = Some ei ->
  errors (Exceptions.AjvValidationException type (Some errs)) !! j = Some ej ->
  is_union_keyword (keyword ei) = true ->
  includes (instancePath ej) (instancePath ei) = false /\
  instancePath ej <> instancePath ei.
Proof.
  intros Hij Hi Hj Hu.
  pose proof (report_separated errs i j ei ej Hij Hi Hj Hu) as Hs.
  split; [done|]. intros Heq. rewrite Heq in Hs.
  assert (includes (instancePath ei) (instancePath ei) = true) as Ht; [|congruence].
  apply includes_refl.
Qed.

Lemma report_never_under_earlier_union_witness :
  includes "/b" "/a" = false /\ "/b" <> "/a".
Proof.
  apply (report_never_under_earlier_union body
           [mkError "/a" "anyOf"; mkError "/a" "oneOf"; mkError "/a/x" "type";
            mkError "/b" "oneOf"]
           0%nat 1%nat (mkError "/a" "anyOf") (mkError "/b" "oneOf"));
    [lia | reflexivity | reflexivity | reflexivity].
Defined.

Lemma fold_report_blocked l r :
  "" ∈ unionPaths r -> fold_left report_step l r = r.
Proof.
  intros Hr. induction l as [|e l IH]; [done|]. simpl.
  assert (report_step r e = r) as ->; [|done].
  apply report_step_dropped, existsb_exists. exists "".
  split; [by apply list_elem_of_In | apply includes_empty].
Qed.

(** X6: a oneOf or anyOf error at the root, whose instance path is empty,
    hides every raw error after it: when it comes first it is the only
    error reported. *)
Theorem report_root_union_hides_rest type e l :
  is_union_keyword (keyword e) = true ->
  instancePath e = "" ->
  errors (Exceptions.AjvValidationException type (Some (e :: l))) = [e].
Proof.
  intros Hu Hp.
  change (topLevelErrors (fold_left report_step l (report_step reporter0 e)) = [e]).
  assert (report_step reporter0 e = {| topLevelErrors := [e]; unionPaths := [""] |}) as ->.
  { unfold report_step. simpl. by rewrite Hu, Hp. }
  rewrite fold_report_blocked; [done|]. simpl. by left.
Qed.

Lemma report_root_union_hides_rest_witness :
  errors (Exceptions.AjvValidationException body
            (Some [mkError "" "anyOf"; mkError "/a" "type"; mkError "/b" "oneOf"]))
  = [mkError "" "anyOf"].
Proof.
  apply (report_root_union_hides_rest body (mkError "" "anyOf")
           [mkError "/a" "type"; mkError "/b" "oneOf"]); reflexivity.
Defined.

(** ** The path checks of [HttpEndpoint] *)

Lemma has_name_spec name v : has_name name v = true <-> cfg_name v = Some name.
Proof.
  unfold has_name. destruct (cfg_name v) as [n|]; [|done].
  rewrite String.eqb_eq. split; congruence.
Qed.

Lemma check_path_params_spec request pps :
  check_path_params request pps = Returned tt <-> Forall (param_served request) pps.
Proof.
  induction pps as [|pp pps IH]; simpl.
  - split; [constructor | done].
  - destruct (List.find (has_name (pp_name pp)) request) as [v|] eqn:Ef.
    + destruct (match cfg_required v with Some false => true | _ => false end
                && pp_required pp) eqn:Eb.
      * split; [done|]. intros [(v' & Hv' & Hn) _]%Forall_cons.
        rewrite Ef in Hv'. injection Hv' as <-. destruct Hn.
        apply andb_true_iff in Eb as [Hr Hp]. split; [|done].
        by destruct (cfg_required v) as [[|]|].
      * rewrite IH. split.
        -- intros Hall. constructor; [|done]. exists v. split; [done|].
           intros [Hr Hp]. by rewrite Hr, Hp in Eb.
        -- by intros [_ Hall]%Forall_cons.
    + split; [done|]. intros [(v & Hv & _) _]%Forall_cons. by rewrite Ef in Hv.
Qed.

Lemma find_none_iff {A} (f : A -> bool) (l : list A) :
  List.find f l = None <-> forall x, x ∈ l -> f x = false.
Proof.
  induction l as [|a l IH]; simpl.
  - split; [by intros _ x Hx%elem_of_nil | done].
  - destruct (f a) eqn:Ea.
    + split; [done|]. intros H. rewrite H in Ea; [done | by left].
    + rewrite IH. split.
      * intros H x [->|Hx]%elem_of_cons; auto.
      * intros H x Hx. apply H. by right.
Qed.

Lemma is_stray_param_false pps v :
  is_stray_param pps v = false <->
  (cfg_type v = Some param ->
   exists pp, pp ∈ pps /\ cfg_name v = Some (pp_name pp)).
Proof.
  unfold is_stray_param. split.
  - intros H Hty. rewrite Hty in H. simpl in H.
    apply negb_false_iff, existsb_exists in H as (pp & Hin & Hn).
    exists pp. split; [by apply list_elem_of_In | by apply has_name_spec].
  - intros H. destruct (cfg_type v) as [[| | |]|]; try done. simpl.
    destruct (H eq_refl) as (pp & Hin & Hn).
    apply negb_false_iff, existsb_exists. exists pp.
    split; [by apply list_elem_of_In | by apply has_name_spec].
Qed.

(** X7: what [HttpEndpoint] accepts.  With a path and request validators,
    the checks pass exactly when the path is empty, or every path parameter
    is served by the first request validator of its name, and every
    request validator of type param is named after a path parameter. *)
Theorem pathParamChecks_accepts path request :
  pathParamChecks (Some path) (Some request) = Returned tt <->
  path = "" \/
  (Forall (param_served request) (pathParams path) /\
   forall v, v ∈ request -> cfg_type v = Some param ->
     exists pp, pp ∈ pathParams path /\ cfg_name v = Some (pp_name pp)).
Proof.
  unfold pathParamChecks. destruct (String.eqb path "") eqn:Ep.
  - apply String.eqb_eq in Ep. split; [by left | done].
  - apply String.eqb_neq in Ep.
    destruct (check_path_params request (pathParams path)) as [[]|e] eqn:Ec; simpl.
    + apply check_path_params_spec in Ec.
      destruct (List.find (is_stray_param (pathParams path)) request) as [v|] eqn:Ef.
      * split; [done|]. intros [Hp|[_ Hall]]; [done|].
        apply find_some in Ef as [Hin Hs].
        assert (is_stray_param (pathParams path) v = false) as Hf; [|congruence].
        apply is_stray_param_false. intros Hty. apply Hall; [|done].
        by apply list_elem_of_In.
      * split; [|done]. intros _. right. split; [done|].
        intros v Hin. apply is_stray_param_false.
        by apply (proj1 (find_none_iff _ _) Ef).
    + split; [done|]. intros [Hp|[Hall _]]; [done|].
      apply check_path_params_spec in Hall. congruence.
Qed.

Lemma split_on_no_sep c s : has_char c s = false -> split_on c s = [s].
Proof.
  induction s as [|a s IH]; simpl; [done|].
  intros [Ha Hs]%orb_false_iff. rewrite Ha, IH; done.
Qed.

Lemma has_char_app c s t : has_char c (s +:+ t) = has_char c s || has_char c t.
Proof.
  induction s as [|a s IH]; [done|].
  change (String a s +:+ t) with (String a (s +:+ t)). simpl.
  by rewrite IH, orb_assoc.
Qed.

Lemma has_line_terminator_app s t :
  has_line_terminator (s +:+ t) = has_line_terminator s || has_line_terminator t.
Proof.
  induction s as [|a s IH]; [done|].
  change (String a s +:+ t) with (String a (s +:+ t)). simpl.
  by rewrite IH, orb_assoc.
Qed.

Lemma endsWith_app s suf : endsWith (s +:+ suf) suf = true.
Proof.
  induction s as [|a s IH].
  - change ("" +:+ suf) with suf. destruct suf as [|c suf]; [done|].
    change (endsWith (String c suf) (String c suf))
      with (String.eqb (String c suf) (String c suf) || endsWith suf (String c suf)).
    by rewrite String.eqb_refl.
  - change (String a s +:+ suf) with (String a (s +:+ suf)). simpl.
    rewrite IH. apply orb_true_r.
Qed.

(** X8: the question mark that marks a path parameter as optional stays in
    its name.  For the path [/:n?] the one path parameter is named [n?] and
    is optional, so that without a request validator named [n?] (a
    validator named [n] does not do) [HttpEndpoint] throws. *)
Theorem optional_path_param_keeps_mark n request :
  has_char "/" n = false -> has_line_terminator n = false ->
  pathParams ("/:" +:+ n +:+ "?") =
    [{| pp_name := n +:+ "?"; pp_required := false |}] /\
  ((forall v, v ∈ request -> cfg_name v <> Some (n +:+ "?")) ->
   pathParamChecks (Some ("/:" +:+ n +:+ "?")) (Some request) =
     Thrown (ConfigError ("Path param " +:+ dq +:+ (n +:+ "?") +:+ dq
                          +:+ " is missing a request validator."))).
Proof.
  intros Hs Hl.
  assert (pathParams ("/:" +:+ n +:+ "?") =
            [{| pp_name := n +:+ "?"; pp_required := false |}]) as Hpp.
  { unfold pathParams.
    change ("/:" +:+ n +:+ "?") with (String "/" (String ":" (n +:+ "?"))).
    change (split_on "/" (String "/" (String ":" (n +:+ "?"))))
      with ("" :: split_on "/" (String ":" (n +:+ "?"))).
    rewrite split_on_no_sep by (simpl; by rewrite has_char_app, Hs).
    simpl.
    assert (startsWith (n +:+ "?") "" = true) as ->
      by (unfold startsWith; apply prefix_spec; by exists (n +:+ "?")).
    simpl. rewrite has_line_terminator_app, Hl. simpl.
    change (String ":" (n +:+ "?")) with ((String ":" n) +:+ "?").
    by rewrite endsWith_app. }
  split; [done|]. intros Hnone.
  unfold pathParamChecks. rewrite Hpp. simpl.
  assert (List.find (has_name (n +:+ "?")) request = None) as ->.
  { apply find_none_iff. intros v Hv.
    destruct (has_name (n +:+ "?") v) eqn:E; [|done].
    apply has_name_spec in E. by destruct (Hnone v Hv). }
  done.
Qed.

Lemma optional_path_param_keeps_mark_witness :
  pathParams "/:id?" = [{| pp_name := "id?"; pp_required := false |}] /\
  pathParamChecks (Some "/:id?")
    (Some [{| cfg_type := Some param; cfg_schema := None; cfg_coerceTypes := None;
              cfg_stripUnknownProps := None; cfg_name := Some "id";
              cfg_required := Some false |}]) =
    Thrown (ConfigError ("Path param " +:+ dq +:+ "id?" +:+ dq
                         +:+ " is missing a request validator.")).
Proof.
  destruct (optional_path_param_keeps_mark "id"
    [{| cfg_type := Some param; cfg_schema := None; cfg_coerceTypes := None;
        cfg_stripUnknownProps := None; cfg_name := Some "id";
        cfg_required := Some false |}] eq_refl eq_refl) as [Hpp Hthrow].
  split; [exact Hpp|]. apply Hthrow.
  intros v Hv Hn. apply list_elem_of_In in Hv. destruct Hv as [<-|[]].
  discriminate Hn.
Defined.

Example path_checks_example :
  pathParamChecks (Some "/users/:id/posts")
    (Some [{| cfg_type := Some param; cfg_schema := None; cfg_coerceTypes := None;
              cfg_stripUnknownProps := None; cfg_name := Some "id";
              cfg_required := None |};
           {| cfg_type := Some body; cfg_schema := Some age_schema;
              cfg_coerceTypes := None; cfg_stripUnknownProps := None;
              cfg_name := None; cfg_required := None |}]) = Returned tt.
Proof. reflexivity. Qed.

(** ** [validate], beyond the claims *)

(** X9: the ways a call of [validate] can end.  It throws a [TypeError]
    from reading the schema, with the checker not called; or the
    transformed data is [undefined] for a validator that is not required
    and it returns [undefined], with the checker not called; or it calls
    the checker once, on the transformed data, and returns that data when
    the checker accepts and throws the validation failure made of the
    checker's errors when it rejects.  It never ends otherwise. *)
Theorem validate_outcomes type schema coerceTypes stripUnknownProps required check
    st v st' res :
  validate type schema coerceTypes stripUnknownProps required check st v = (st', res) ->
  (transform schema coerceTypes stripUnknownProps (st_heap st) v = Thrown TypeError /\
   res = Thrown TypeError /\ st' = st) \/
  (exists h,
     transform schema coerceTypes stripUnknownProps (st_heap st) v
       = Returned (h, VUndefined) /\
     truthy required = false /\ res = Returned VUndefined /\
     st' = {| st_heap := h; st_checked := st_checked st |}) \/
  (exists h p,
     transform schema coerceTypes stripUnknownProps (st_heap st) v = Returned (h, p) /\
     st_checked st' = st_checked st ++ [p] /\
     ((res = Returned p /\ check h p = (st_heap st', Accept)) \/
      (exists errs,
         res = Thrown (BadRequest (Exceptions.AjvValidationException type errs)) /\
         check h p = (st_heap st', Reject errs)))).
Proof.
  rewrite validate_unfold.
  destruct (transform _ _ _ _ _) as [[h p]|e] eqn:Et.
  - unfold validate_tail.
    destruct (_ && _) eqn:Eb.
    + intros [= <- <-]. right. left. exists h.
      apply andb_true_iff in Eb as [Hp Hr]. apply negb_true_iff in Hr.
      by destruct p.
    + destruct (check h p) as [h' [|errs]] eqn:Ec; intros [= <- <-];
        right; right; exists h, p; (split; [done|]); (split; [done|]).
      * by left.
      * right. by exists errs.
  - apply transform_throws in Et as Hte. subst e. intros [= <- <-]. by left.
Qed.

Lemma validate_outcomes_witness :
  (transform string_schema (Some true) None [] VUndefined = Thrown TypeError /\
   Returned VUndefined = Thrown TypeError /\
   {| st_heap := [OArray [VUndefined]]; st_checked := [] |}
     = {| st_heap := []; st_checked := [] |}) \/
  (exists h,
     transform string_schema (Some true) None [] VUndefined = Returned (h, VUndefined) /\
     truthy (Some false) = false /\ Returned VUndefined = Returned VUndefined /\
     {| st_heap := [OArray [VUndefined]]; st_checked := [] |}
       = {| st_heap := h; st_checked := [] |}) \/
  (exists h p,
     transform string_schema (Some true) None [] VUndefined = Returned (h, p) /\
     [] = [] ++ [p] /\
     ((Returned VUndefined = Returned p /\
       accept_all h p = ([OArray [VUndefined]], Accept)) \/
      (exists errs,
         Returned VUndefined
           = Thrown (BadRequest (Exceptions.AjvValidationException query errs)) /\
         accept_all h p = ([OArray [VUndefined]], Reject errs)))).
Proof.
  apply (validate_outcomes query string_schema (Some true) None (Some false) accept_all
           {| st_heap := []; st_checked := [] |} VUndefined
           {| st_heap := [OArray [VUndefined]]; st_checked := [] |}
           (Returned VUndefined)).
  reflexivity.
Defined.

Lemma coerced_record_dom known m : dom (coerced_record known m) = dom m.
Proof.
  apply set_eq. intros k. rewrite !elem_of_dom, coerced_record_lookup.
  destruct (known_type_of known k); [|done]. by rewrite fmap_is_Some.
Qed.

(** X10: coercion without stripping works on the input itself.  For a
    record input, with coercion on and stripping off, the checker is given
    the input reference and, when it accepts, [validate] returns that same
    reference; the record has the property names it had, and a property
    whose name is not in the known-property map has the value it had. *)
Theorem validate_coerces_in_place type schema coerceTypes stripUnknownProps required
    check st ld m known h' :
  truthy stripUnknownProps = false -> truthy coerceTypes = true ->
  st_heap st !! ld = Some (ORecord m) ->
  knownPropTypes schema = Returned known ->
  check (<[ld := ORecord (coerced_record known m)]> (st_heap st) ++ [OArray [VRef ld]])
        (VRef ld) = (h', Accept) ->
  validate type schema coerceTypes stripUnknownProps required check st (VRef ld) =
    ({| st_heap := h'; st_checked := st_checked st ++ [VRef ld] |}, Returned (VRef ld)) /\
  dom (coerced_record known m) = dom m /\
  (forall k, known !! k = None -> coerced_record known m !! k = m !! k).
Proof.
  intros Hs Hc Hd Hk Hok. split; [|split].
  - rewrite validate_unfold, (transform_coerce_record _ _ _ _ _ _ _ Hs Hc Hd Hk).
    unfold validate_tail. simpl. by rewrite Hok.
  - apply coerced_record_dom.
  - intros k Hn. by apply coerced_record_unknown.
Qed.

Lemma validate_coerces_in_place_witness :
  let m : gmap string value := <[ "extra" := VStr "7" ]> {[ "age" := VStr "42" ]} in
  validate body age_schema (Some true) None (Some true) accept_all
    {| st_heap := [ORecord m]; st_checked := [] |} (VRef 0%nat) =
    ({| st_heap := <[0%nat := ORecord (coerced_record {[ "age" := "integer" ]} m)]> [ORecord m]
                   ++ [OArray [VRef 0%nat]];
        st_checked := [] ++ [VRef 0%nat] |}, Returned (VRef 0%nat)) /\
  dom (coerced_record {[ "age" := "integer" ]} m) = dom m /\
  (forall k, ({[ "age" := "integer" ]} : gmap string string) !! k = None ->
     coerced_record {[ "age" := "integer" ]} m !! k = m !! k).
Proof.
  intros m.
  apply (validate_coerces_in_place body age_schema (Some true) None (Some true)
           accept_all {| st_heap := [ORecord m]; st_checked := [] |} 0%nat m
           {[ "age" := "integer" ]}); reflexivity.
Defined.

(** ** What the transformation keeps *)

Lemma same_shape_refl o : same_shape o o.
Proof. by destruct o. Qed.

Lemma same_shape_trans o1 o2 o3 :
  same_shape o1 o2 -> same_shape o2 o3 -> same_shape o1 o3.
Proof. destruct o1, o2, o3; simpl; try done; congruence. Qed.

Lemma keeps_shapes_refl h : keeps_shapes h h.
Proof. intros l o Hl. exists o. split; [done | apply same_shape_refl]. Qed.

Lemma keeps_shapes_trans h1 h2 h3 :
  keeps_shapes h1 h2 -> keeps_shapes h2 h3 -> keeps_shapes h1 h3.
Proof.
  intros H12 H23 l o Hl. destruct (H12 l o Hl) as (o2 & Hl2 & Hs2).
  destruct (H23 l o2 Hl2) as (o3 & Hl3 & Hs3).
  exists o3. split; [done | by eapply same_shape_trans].
Qed.

Lemma keeps_shapes_app (h ext : heap) : keeps_shapes h (h ++ ext).
Proof.
  intros l o Hl. exists o. split; [by apply lookup_app_l_Some | apply same_shape_refl].
Qed.

Lemma keeps_shapes_insert (h : heap) l o o' :
  h !! l = Some o -> same_shape o o' -> keeps_shapes h (<[l := o']> h).
Proof.
  intros Hl Hs l' o1 Hl'. destruct (decide (l' = l)) as [->|Hne].
  - exists o'. rewrite list_lookup_insert_eq by (by eapply lookup_lt_Some).
    split; [done | congruence].
  - exists o1. rewrite list_lookup_insert_ne by done.
    split; [done | apply same_shape_refl].
Qed.

Lemma keeps_shapes_set_elem (h : heap) l i v : keeps_shapes h (set_elem l i v h).
Proof.
  unfold set_elem. destruct (h !! l) as [[m|es]|] eqn:E; try apply keeps_shapes_refl.
  apply (keeps_shapes_insert h l (OArray es)); [done|]. simpl. apply length_insert.
Qed.

Lemma props_loop_off coerceTypes stripUnknownProps known ld lp ks (h : heap) :
  truthy stripUnknownProps = false -> truthy coerceTypes = false ->
  props_loop coerceTypes stripUnknownProps known ld lp ks h = h.
Proof.
  intros Hs Hc. induction ks as [|k ks IH]; simpl; [done|].
  destruct (known_type_of known k); [|done]. by rewrite Hs, Hc.
Qed.

Lemma elem_step_keeps_shapes coerceTypes stripUnknownProps known jsonSchema la (h : heap) i :
  keeps_shapes h (elem_step coerceTypes stripUnknownProps known jsonSchema la h i).
Proof.
  unfold elem_step.
  destruct (isObj h (get_elem h la i)) eqn:Ho.
  - destruct (isObj_inv _ _ Ho) as (ld & m & -> & Hd).
    pose proof (lookup_lt_Some _ _ _ Hd) as Hlt.
    destruct (truthy stripUnknownProps) eqn:Hs; simpl.
    + unfold keys_of. rewrite (lookup_alloc_old h _ ld _ Hd).
      rewrite (props_loop_strip known coerceTypes stripUnknownProps ld (length h)
                 _ (h ++ [ORecord ∅]) m ∅ Hs); [|lia| |apply lookup_alloc].
      2:{ by apply lookup_alloc_old. }
      rewrite insert_alloc.
      eapply keeps_shapes_trans; [apply keeps_shapes_app | apply keeps_shapes_set_elem].
    + unfold keys_of. rewrite Hd.
      destruct (truthy coerceTypes) eqn:Hc.
      * rewrite (props_loop_in_place known coerceTypes stripUnknownProps ld _ h m Hs Hc Hd).
        fold (coerced_record known m).
        eapply keeps_shapes_trans; [|apply keeps_shapes_set_elem].
        apply (keeps_shapes_insert h ld (ORecord m)); [done|].
        simpl. apply coerced_record_dom.
      * rewrite props_loop_off by done. apply keeps_shapes_set_elem.
  - destruct (scalar_type jsonSchema); [|apply keeps_shapes_refl].
    destruct (truthy coerceTypes); [apply keeps_shapes_set_elem | apply keeps_shapes_refl].
Qed.

Lemma fold_elem_step_keeps_shapes coerceTypes stripUnknownProps known jsonSchema la
    (idx : list nat) (h : heap) :
  keeps_shapes h
    (fold_left (elem_step coerceTypes stripUnknownProps known jsonSchema la) idx h).
Proof.
  revert h. induction idx as [|i idx IH]; intros h; simpl; [apply keeps_shapes_refl|].
  eapply keeps_shapes_trans; [apply elem_step_keeps_shapes | apply IH].
Qed.

(** X11: what the transformation keeps of the store it is given.  When it
    returns, every object that was in the store is still there and is of the
    same kind; a record has the property names it had, and an array has the
    length it had.  (New objects come after the old ones.) *)
Theorem transform_keeps_shapes schema coerceTypes stripUnknownProps (h : heap) v h' r :
  transform schema coerceTypes stripUnknownProps h v = Returned (h', r) ->
  (length h <= length h')%nat /\
  forall l o, h !! l = Some o -> exists o', h' !! l = Some o' /\ same_shape o o'.
Proof.
  intros Ht.
  assert (keeps_shapes h h') as Hk.
  { revert Ht. unfold transform.
    destruct (_ || _); [|intros [= <- _]; apply keeps_shapes_refl].
    destruct (array_loc h v) as [la|]; simpl.
    - destruct (prop_get schema "items") as [items|]; simpl; [|done].
      destruct (knownPropTypes _) as [known|]; simpl; [|done].
      intros [= <- _]. apply fold_elem_step_keeps_shapes.
    - destruct (knownPropTypes schema) as [known|]; simpl; [|done].
      intros [= <- _].
      eapply keeps_shapes_trans; [apply keeps_shapes_app|].
      apply fold_elem_step_keeps_shapes. }
  split; [|exact Hk].
  destruct (decide (length h <= length h')%nat) as [|Hn]; [done|].
  destruct (lookup_lt_is_Some_2 h (length h')) as [o Ho]; [lia|].
  destruct (Hk _ _ Ho) as (o' & Ho' & _).
  apply lookup_lt_Some in Ho'. lia.
Qed.

Lemma transform_keeps_shapes_witness :
  let h := [ORecord (<[ "extra" := VStr "x" ]> {[ "age" := VStr "42" ]}); OArray [VRef 0%nat]] in
  let h' := [ORecord (<[ "extra" := VStr "x" ]> {[ "age" := VNum (42 # 1) ]});
             OArray [VRef 0%nat]] in
  (length h <= length h')%nat /\
  forall l o, h !! l = Some o -> exists o', h' !! l = Some o' /\ same_shape o o'.
Proof.
  intros h h'.
  apply (transform_keeps_shapes
           (JObj [("type", JStr "array"); ("items", age_schema)])
           (Some true) None h (VRef 1%nat) h' (VRef 1%nat)).
  vm_compute. reflexivity.
Defined.

(** ** Array inputs *)







Lemma isObj_primitive (h : heap) v : is_primitive v = true -> isObj h v = false.
Proof. by destruct v. Qed.

Lemma coerce_loop_primitives coerceTypes stripUnknownProps known jsonSchema (h : heap)
    la es ty n :
  truthy coerceTypes = true -> scalar_type jsonSchema = Some ty ->
  h !! la = Some (OArray es) ->
  Forall (fun e => is_primitive e = true) es ->
  (n <= length es)%nat ->
  fold_left (elem_step coerceTypes stripUnknownProps known jsonSchema la) (seq 0 n) h =
    <[la := OArray ((coerceType ty <$> take n es) ++ drop n es)]> h.
Proof.
  intros Hc Hty Hla Hprim. pose proof (lookup_lt_Some _ _ _ Hla) as Hlt.
  induction n as [|n IH]; intros Hn.
  - simpl. rewrite drop_0. by rewrite list_insert_id.
  - rewrite seq_S, fold_left_app, IH by lia. simpl.
    destruct (lookup_lt_is_Some_2 es n) as [e He]; [lia|].
    set (esn := (coerceType ty <$> take n es) ++ drop n es).
    assert (length (coerceType ty <$> take n es) = n) as Hlen.
    { rewrite length_fmap, length_take. lia. }
    assert (esn !! n = Some e) as Hen.
    { unfold esn. rewrite lookup_app_r by lia. rewrite Hlen, Nat.sub_diag.
      by rewrite lookup_drop, Nat.add_0_r. }
    assert ((<[la := OArray esn]> h) !! la = Some (OArray esn)) as Hh
      by (by apply list_lookup_insert_eq).
    unfold elem_step, get_elem. rewrite Hh, Hen. simpl.
    rewrite isObj_primitive by (by eapply Forall_lookup_1 in Hprim).
    rewrite Hty, Hc. unfold set_elem. rewrite Hh, list_insert_insert_eq.
    do 2 f_equal. unfold esn.
    rewrite insert_app_r_alt by lia. rewrite Hlen, Nat.sub_diag.
    rewrite (drop_S es e n He). simpl.
    rewrite (take_S_r es n e He), fmap_app. simpl. by rewrite <- app_assoc.
Qed.

(** X13: coercing an array of primitive values.  With coercion on, an array
    input whose elements are all primitive values, and an item schema that
    names a type, every element of the array is replaced, in the array
    itself, by its coercion to that type; nothing else is written and the
    array is returned. *)
Theorem transform_coerces_array_of_primitives schema coerceTypes stripUnknownProps
    (h : heap) la es items ty known :
  truthy coerceTypes = true ->
  h !! la = Some (OArray es) ->
  Forall (fun e => is_primitive e = true) es ->
  prop_get schema "items" = Returned items ->
  scalar_type (coalesce items (JObj [])) = Some ty ->
  knownPropTypes (coalesce items (JObj [])) = Returned known ->
  transform schema coerceTypes stripUnknownProps h (VRef la) =
    Returned (<[la := OArray (coerceType ty <$> es)]> h, VRef la).
Proof.
  intros Hc Hla Hprim Hitems Hty Hk.
  unfold transform. rewrite Hc. simpl.
  unfold isArray, array_loc. rewrite Hla, Hitems. simpl. rewrite Hk. simpl.
  unfold array_length. rewrite Hla.
  rewrite (coerce_loop_primitives coerceTypes stripUnknownProps known _ h la es ty
             (length es) Hc Hty Hla Hprim) by lia.
  by rewrite firstn_all, drop_all, app_nil_r.
Qed.

Lemma transform_coerces_array_of_primitives_witness :
  transform (JObj [("type", JStr "array"); ("items", JObj [("type", JStr "integer")])])
    (Some true) None [OArray [VStr "1"; VStr "x"; VNull]] (VRef 0%nat) =
  Returned (<[0%nat := OArray (coerceType "integer" <$> [VStr "1"; VStr "x"; VNull])]>
              [OArray [VStr "1"; VStr "x"; VNull]],
            VRef 0%nat).
Proof.
  apply (transform_coerces_array_of_primitives
           (JObj [("type", JStr "array"); ("items", JObj [("type", JStr "integer")])])
           (Some true) None [OArray [VStr "1"; VStr "x"; VNull]] 0%nat
           [VStr "1"; VStr "x"; VNull]
           (Some (JObj [("type", JStr "integer")])) "integer" ∅);
    try reflexivity.
  repeat constructor.
Defined.

(** ** Union schemas and stripping *)

(** X14: when a schema has [anyOf], only its branches say which properties
    are known: with stripping on, a property of a record input that no
    branch declares, and whose name is not the name of a member of
    [Object.prototype], is dropped, whatever the schema's own [properties]
    or its [allOf] declare. *)
Theorem strip_knows_only_anyOf_branches coerceTypes stripUnknownProps (h : heap)
    l bs ld m p :
  truthy stripUnknownProps = true ->
  h !! ld = Some (ORecord m) ->
  assoc "anyOf" l = Some (JArr bs) ->
  Forall (fun b => b <> JNull) bs ->
  p ∉ (declared bs).*1 ->
  p ∉ object_prototype_names ->
  exists out,
    transform (JObj l) coerceTypes stripUnknownProps h (VRef ld) =
      Returned (h ++ [OArray [VRef (S (length h))]; ORecord out], VRef (S (length h))) /\
    out !! p = None.
Proof.
  intros Hs Hd Hany Hnn Hp Hproto.
  pose proof (knownPropTypes_returns l bs (or_introl Hany) Hnn) as Hk.
  eexists. split; [by apply transform_strip_record|].
  apply stripped_not_found, known_type_of_None. split; [|done].
  destruct (record_types (declared bs) ∅ !! p) as [ty|] eqn:E; [|done].
  assert (is_Some (record_types (declared bs) ∅ !! p)) as Hsome by (by exists ty).
  apply record_types_dom in Hsome as [[x Hx]|Hin]; [by rewrite lookup_empty in Hx | done].
Qed.

Lemma strip_knows_only_anyOf_branches_witness :
  exists out,
    transform
      (JObj [("properties", JObj [("a", JObj [("type", JStr "string")])]);
             ("anyOf", JArr [JObj [("properties", JObj [("b", JObj [("type", JStr "string")])])]])])
      None (Some true)
      [ORecord (<[ "a" := VStr "1" ]> {[ "b" := VStr "2" ]})] (VRef 0%nat) =
      Returned ([ORecord (<[ "a" := VStr "1" ]> {[ "b" := VStr "2" ]})]
                  ++ [OArray [VRef 2%nat]; ORecord out], VRef 2%nat) /\
    out !! "a" = None.
Proof.
  apply (strip_knows_only_anyOf_branches None (Some true)
           [ORecord (<[ "a" := VStr "1" ]> {[ "b" := VStr "2" ]})]
           [("properties", JObj [("a", JObj [("type", JStr "string")])]);
            ("anyOf", JArr [JObj [("properties", JObj [("b", JObj [("type", JStr "string")])])]])]
           [JObj [("properties", JObj [("b", JObj [("type", JStr "string")])])]]
           0%nat (<[ "a" := VStr "1" ]> {[ "b" := VStr "2" ]}) "a");
    try reflexivity.
  - repeat constructor. discriminate.
  - intros Hin. apply list_elem_of_In in Hin. destruct Hin as [Hin|[]]. discriminate Hin.
  - intros Hin. apply existsb_eqb_elem_of in Hin. discriminate Hin.
Defined.

(** ** The defaults of the [Validate] decorator *)

(** X15: whether a request validator is required by default.  For a request
    validator that leaves [required] out, built from the configuration
    [Validate] makes for it: a body or param validator has its checker
    called on the transformed data whatever that is, [undefined] included;
    a query validator answers transformed data that is [undefined] with
    [undefined], the checker not called. *)
Theorem request_validators_required_by_default IsSchema compile methodName cfg cfg'
    sv st v h p :
  cfg_required cfg = None ->
  requestValidatorConfig methodName cfg = Some cfg' ->
  buildSchemaValidator IsSchema compile cfg' = Returned sv ->
  transform (sv_schema sv) (cfg_coerceTypes cfg') (cfg_stripUnknownProps cfg')
    (st_heap st) v = Returned (h, p) ->
  match cfg_type cfg with
  | Some query =>
      p = VUndefined ->
      sv_validate sv st v =
        ({| st_heap := h; st_checked := st_checked st |}, Returned VUndefined)
  | _ => st_checked (sv_validate sv st v).1 = st_checked st ++ [p]
  end.
Proof.
  intros Hreq Hcfg Hb Ht.
  destruct (buildSchemaValidator_inv _ _ _ _ Hb)
    as (type & check & _ & _ & _ & _ & _ & _ & _ & ->).
  rewrite validate_unfold, Ht. unfold validate_tail.
  unfold requestValidatorConfig in Hcfg. rewrite Hreq in Hcfg.
  destruct (cfg_type cfg) as [[| | |]|]; try done;
    injection Hcfg as <-; simpl.
  - rewrite andb_false_r. by destruct (check h p) as [h' [|errs]].
  - rewrite andb_false_r. by destruct (check h p) as [h' [|errs]].
  - by intros ->.
Qed.

Lemma request_validators_required_by_default_witness :
  st_checked
    (validate param string_schema (Some true) None (Some true) (reject_all None)
       {| st_heap := []; st_checked := [] |} VUndefined).1 = [] ++ [VUndefined].
Proof.
  refine (request_validators_required_by_default (fun _ => true)
            (fun _ => Some (reject_all None)) "Find"
            {| cfg_type := Some param; cfg_schema := None; cfg_coerceTypes := None;
               cfg_stripUnknownProps := None; cfg_name := Some "id";
               cfg_required := None |}
            _
            {| sv_schema := string_schema; sv_name := "id";
               sv_check := reject_all None;
               sv_validate :=
                 validate param string_schema (Some true) None (Some true)
                   (reject_all None) |}
            {| st_heap := []; st_checked := [] |} VUndefined
            [OArray [VUndefined]] VUndefined eq_refl eq_refl eq_refl eq_refl).
Defined.

Lemma append_not_empty s t : t <> "" -> s +:+ t <> "".
Proof. destruct s as [|c s]; [done|]. intros _. discriminate. Qed.

(** X16: the names [Validate] gives.  A body validator and the response
    validator that leave their name out are built under the name of the
    method followed by [Body] and by [Response]: for them the builder never
    fails for a missing name, and with a schema that the guard recognises
    and that compiles it returns a validator of that name. *)
Theorem default_names_build IsSchema compile methodName cfg schema check :
  cfg_name cfg = None ->
  cfg_schema cfg = Some schema ->
  IsSchema schema = true -> compile schema = Some check ->
  (cfg_type cfg = Some body ->
   exists cfg' sv,
     requestValidatorConfig methodName cfg = Some cfg' /\
     buildSchemaValidator IsSchema compile cfg' = Returned sv /\
     sv_name sv = methodName +:+ "Body" /\ sv_schema sv = schema) /\
  (exists sv,
     buildSchemaValidator IsSchema compile (responseValidatorConfig methodName cfg)
       = Returned sv /\
     sv_name sv = methodName +:+ "Response" /\ sv_schema sv = schema).
Proof.
  intros Hn Hs Hg Hc. split.
  - intros Hty. unfold requestValidatorConfig. rewrite Hty, Hn, Hs. simpl.
    destruct (methodName +:+ "Body") as [|c nm] eqn:En.
    { exfalso. by eapply (append_not_empty methodName "Body"). }
    eexists _, _. split; [done|].
    unfold buildSchemaValidator. simpl. rewrite Hg, Hc. simpl. by repeat split.
  - unfold responseValidatorConfig, buildSchemaValidator. rewrite Hn, Hs. simpl.
    rewrite Hg, Hc. simpl.
    destruct (methodName +:+ "Response") as [|c nm] eqn:En.
    { exfalso. by eapply (append_not_empty methodName "Response"). }
    eexists. by repeat split.
Qed.

Lemma default_names_build_witness :
  exists sv,
    buildSchemaValidator (fun _ => true) (fun _ => Some accept_all)
      (responseValidatorConfig "Create"
         {| cfg_type := None; cfg_schema := Some age_schema; cfg_coerceTypes := None;
            cfg_stripUnknownProps := None; cfg_name := None; cfg_required := None |})
      = Returned sv /\
    sv_name sv = "Create" +:+ "Response" /\ sv_schema sv = age_schema.
Proof.
  apply (proj2 (default_names_build (fun _ => true) (fun _ => Some accept_all) "Create"
    {| cfg_type := None; cfg_schema := Some age_schema; cfg_coerceTypes := None;
       cfg_stripUnknownProps := None; cfg_name := None; cfg_required := None |}
    age_schema accept_all eq_refl eq_refl eq_refl eq_refl)).
Defined.

(** ** Values that are neither records nor arrays *)

(** X17: a value that is neither a record nor an array is coerced as a
    whole.  With one of the two flags on, the checker is given the coercion
    of the input to the type the schema names when coercion is on and the
    schema names one, and the input itself otherwise; when the checker
    accepts, [validate] returns what it gave to the checker.  The objects of
    the incoming store are not written: the value travels in a new
    one-element array. *)
Theorem validate_coerces_whole_value type schema coerceTypes stripUnknownProps required
    check st v known h' :
  truthy coerceTypes || truthy stripUnknownProps = true ->
  isObj (st_heap st) v = false -> isArray (st_heap st) v = false ->
  knownPropTypes schema = Returned known ->
  let v' := match scalar_type schema with
            | Some ty => coerced coerceTypes ty v
            | None => v
            end in
  (v' = VUndefined -> truthy required = true) ->
  check (st_heap st ++ [OArray [v']]) v' = (h', Accept) ->
  validate type schema coerceTypes stripUnknownProps required check st v =
    ({| st_heap := h'; st_checked := st_checked st ++ [v'] |}, Returned v').
Proof.
  intros Hf Ho Ha Hk v' Hreq Hok.
  rewrite validate_unfold, (transform_scalar _ _ _ _ _ _ Hf Ho Ha Hk).
  fold v'. unfold validate_tail.
  assert ((match v' with VUndefined => true | _ => false end)
          && negb (truthy required) = false) as ->.
  { destruct v'; try done. by rewrite Hreq. }
  by rewrite Hok.
Qed.

Lemma validate_coerces_whole_value_witness :
  validate param (JObj [("type", JStr "integer")]) (Some true) None (Some true)
    accept_all {| st_heap := []; st_checked := [] |} (VStr "42") =
  ({| st_heap := [] ++ [OArray [coerced (Some true) "integer" (VStr "42")]];
      st_checked := [] ++ [coerced (Some true) "integer" (VStr "42")] |},
   Returned (coerced (Some true) "integer" (VStr "42"))).
Proof.
  apply (validate_coerces_whole_value param (JObj [("type", JStr "integer")])
           (Some true) None (Some true) accept_all
           {| st_heap := []; st_checked := [] |} (VStr "42") ∅);
    reflexivity.
Defined.

(** ** Request validators without a schema *)

(** X18: a param or query validator that leaves its schema out is built on
    the schema of a plain string, and with coercion on unless the
    configuration says otherwise: given a name, and the string schema being
    one the guard recognises and the compiler compiles, the builder returns
    a validator with that schema and that name. *)
Theorem request_validators_default_to_string_schema IsSchema compile methodName cfg
    name check :
  cfg_type cfg = Some param \/ cfg_type cfg = Some query ->
  cfg_schema cfg = None ->
  cfg_name cfg = Some name -> name <> "" ->
  IsSchema string_schema = true -> compile string_schema = Some check ->
  exists cfg' sv,
    requestValidatorConfig methodName cfg = Some cfg' /\
    cfg_coerceTypes cfg' = Some (default true (cfg_coerceTypes cfg)) /\
    buildSchemaValidator IsSchema compile cfg' = Returned sv /\
    sv_schema sv = string_schema /\ sv_name sv = name /\ sv_check sv = check.
Proof.
  intros Hty Hsc Hn Hne Hg Hc. unfold requestValidatorConfig.
  destruct Hty as [-> | ->]; rewrite Hsc, Hn; simpl;
    eexists _, _; (split; [done|]); (split; [done|]);
    unfold buildSchemaValidator; simpl; rewrite Hg, Hc; simpl;
    destruct name; try done.
Qed.

Lemma request_validators_default_to_string_schema_witness :
  exists cfg' sv,
    requestValidatorConfig "List"
      {| cfg_type := Some query; cfg_schema := None; cfg_coerceTypes := None;
         cfg_stripUnknownProps := None; cfg_name := Some "page";
         cfg_required := None |} = Some cfg' /\
    cfg_coerceTypes cfg' = Some (default true None) /\
    buildSchemaValidator (fun _ => true) (fun _ => Some accept_all) cfg' = Returned sv /\
    sv_schema sv = string_schema /\ sv_name sv = "page" /\ sv_check sv = accept_all.
Proof.
  apply (request_validators_default_to_string_schema (fun _ => true)
           (fun _ => Some accept_all) "List"
           {| cfg_type := Some query; cfg_schema := None; cfg_coerceTypes := None;
              cfg_stripUnknownProps := None; cfg_name := Some "page";
              cfg_required := None |} "page" accept_all);
    [by right | reflexivity | reflexivity | discriminate | reflexivity | reflexivity].
Defined.

(** ** Stripping a record input *)



Example strip_inherited_names_example :
  validate body age_schema (Some true) (Some true) (Some true) accept_all
    {| st_heap := [ORecord (<[ "valueOf" := VStr "v" ]>
                              (<[ "extra" := VStr "x" ]> {[ "age" := VStr "42" ]}))];
       st_checked := [] |} (VRef 0%nat) =
  ({| st_heap := [ORecord (<[ "valueOf" := VStr "v" ]>
                             (<[ "extra" := VStr "x" ]> {[ "age" := VStr "42" ]}));
                  OArray [VRef 2%nat];
                  ORecord (<[ "valueOf" := VStr "v" ]> {[ "age" := VNum (42 # 1) ]})];
      st_checked := [VRef 2%nat] |},
   Returned (VRef 2%nat)).
Proof. vm_compute. reflexivity. Qed.
